(** * Christmas-tree-farm back end: handlers over the entity store

    A shallow embedding of the request handlers of [src/project] that carry
    computed logic or multi-step writes:

    - [analyzeSalesTrends_service.py]: permission gate, store read, and the
      in-memory aggregation (peak periods, top products, customer trends);
    - [addSalesRecord_service.py], [deleteOrder_service.py],
      [deleteSalesRecord_service.py]: read / write sequences on the store;
    - [server.py]: the route wrappers of these four handlers.

    Python integers are [Z], strings are [string], [None]-able values are
    [option].  A Python [dict] whose iteration order is observable is an
    association list kept in insertion order; store tables are [gmap]s keyed
    by the integer id; a Python [set] is a [gset].  Exceptions are values of
    [exn]; a handler is a function from the world (store, pending outage,
    issued calls) to an outcome and the world it leaves behind.

    What the handlers use of their libraries is modelled where a handler
    depends on it: the field validation of the response model of the
    aggregation, the rendering done by the constructor of
    [fastapi.responses.Response], and name lookup in enumerations, model
    classes and module globals.  The generated client ([prisma.enums],
    [prisma.models]) and the installed pydantic version are not part of
    [src/project]; they are the fields of [PrismaClient]. *)

From Stdlib Require Import ZArith Ascii DecimalString.
From Stdlib Require DecimalZ DecimalPos.
From Stdlib Require Import Sorting.Sorted.
From stdpp Require Import base option list gmap strings sorting.

Open Scope Z_scope.

(** ** Exceptions and results *)

Inductive exn_class :=
| PermissionError
| ValueError
| AttributeError
| TypeError
| NameError
| KeyError
| ValidationError
| PrismaError.

Record exn := Exn { exn_type : exn_class; exn_msg : string }.

(** [str(e)] for an exception built from one message argument. *)
Definition str_exn (e : exn) : string := exn_msg e.

Inductive Result (A : Type) :=
| Ok (a : A)
| Raise (e : exn).
Arguments Ok {A} a.
Arguments Raise {A} e.

#[global] Instance Result_ret : MRet Result := fun A a => Ok a.
#[global] Instance Result_fmap : FMap Result := fun A B f m =>
  match m with
  | Ok a => Ok (f a)
  | Raise e => Raise e
  end.
#[global] Instance Result_bind : MBind Result := fun A B f m =>
  match m with
  | Ok a => f a
  | Raise e => Raise e
  end.

(** [r] raises nothing but exceptions of a class in [P]. *)
Definition raises_only {A} (P : exn_class → Prop) (r : Result A) : Prop :=
  match r with
  | Ok _ => True
  | Raise e => P (exn_type e)
  end.

(** The exceptions of plain data handling: none of them is a permission
    error. *)
Definition data_error (c : exn_class) : Prop :=
  c = AttributeError ∨ c = TypeError ∨ c = KeyError ∨ c = ValueError ∨
  c = ValidationError.

(** [for x in xs: acc = step(acc, x)] where the body may raise. *)
Fixpoint for_each {A S} (step : S → A → Result S) (xs : list A) (acc : S)
  : Result S :=
  match xs with
  | [] => Ok acc
  | x :: xs' => acc' ← step acc x; for_each step xs' acc'
  end.

(** ** Python values *)

Class Repr (A : Type) := repr : A → string.

Definition str_Z (z : Z) : string := NilZero.string_of_int (Z.to_int z).

#[global] Instance repr_Z : Repr Z := str_Z.
#[global] Instance repr_string : Repr string := fun s => "'" +:+ s +:+ "'".

(** *** Insertion-ordered dictionaries *)

Abbreviation dict K V := (list (K * V)).

Section Dict.
Context {K V : Type} `{EqDecision K} `{Repr K}.

Fixpoint dict_get (d : dict K V) (k : K) : option V :=
  match d with
  | [] => None
  | (k', v) :: d' => if decide (k' = k) then Some v else dict_get d' k
  end.

(** [k in d] *)
Definition dict_contains (d : dict K V) (k : K) : bool :=
  match dict_get d k with Some _ => true | None => false end.

(** [d[k]] *)
Definition dict_getitem (d : dict K V) (k : K) : Result V :=
  match dict_get d k with
  | Some v => Ok v
  | None => Raise (Exn KeyError (repr k))
  end.

(** [d[k] = v]: an existing key keeps its position, a new key goes last. *)
Fixpoint dict_set (d : dict K V) (k : K) (v : V) : dict K V :=
  match d with
  | [] => [(k, v)]
  | (k', v') :: d' =>
      if decide (k' = k) then (k', v) :: d' else (k', v') :: dict_set d' k v
  end.

Definition dict_keys (d : dict K V) : list K := d.*1.
Definition dict_values (d : dict K V) : list V := d.*2.
Definition dict_items (d : dict K V) : list (K * V) := d.
End Dict.

(** [collections.Counter(xs)]: one entry per distinct element, in order of
    first occurrence, holding the number of occurrences. *)
Definition Counter {K} `{EqDecision K} (xs : list K) : dict K Z :=
  fold_left (fun d x => dict_set d x (default 0 (dict_get d x) + 1)) xs [].

(** [max(xs)] on integers; the empty argument is a [ValueError]. *)
Definition py_max (xs : list Z) : Result Z :=
  match xs with
  | [] => Raise (Exn ValueError "max() arg is an empty sequence")
  | x :: xs' => Ok (fold_left Z.max xs' x)
  end.

(** [sorted(xs, key=key, reverse=True)]: descending by key, and elements
    with equal keys keep the order they had in [xs]. *)
Section Sorted.
Context {A : Type} (key : A → Z).

Fixpoint insert_desc (x : A) (l : list A) : list A :=
  match l with
  | [] => [x]
  | y :: l' => if key x <? key y then y :: insert_desc x l' else x :: y :: l'
  end.

Fixpoint sorted_reverse (l : list A) : list A :=
  match l with
  | [] => []
  | x :: l' => insert_desc x (sorted_reverse l')
  end.
End Sorted.

(** Ranking by descending key, and by [before] among equal keys. *)
Definition ranked {A} (key : A → Z) (before : relation A) : relation A :=
  fun a b => key b < key a ∨ (key a = key b ∧ before a b).

(** *** Timestamps

    Of a [datetime] only the date fields are kept; the handlers read the
    year and the month.  [%Y] is rendered as four digits and [%m] as two;
    a year below 1000 is padded or not depending on the platform, and the
    statements about labels leave such years out. *)

Record datetime := { year : nat; month : nat; day : nat }.

Definition digit (n : nat) : ascii := ascii_of_nat (48 + n mod 10).
Definition pad2 (n : nat) : string :=
  String (digit (n / 10)) (String (digit n) EmptyString).
Definition pad4 (n : nat) : string :=
  String (digit (n / 1000)) (String (digit (n / 100)) (pad2 n)).

(** [d.strftime("%Y-%m")] *)
Definition strftime_Ym (d : datetime) : string :=
  pad4 (year d) +:+ "-" +:+ pad2 (month d).

(** The timestamps on which the rendering above is the one of every
    platform: four-digit years and calendar months. *)
Definition four_digit_year (d : datetime) : Prop :=
  1000 ≤ Z.of_nat (year d) ≤ 9999 ∧ 1 ≤ Z.of_nat (month d) ≤ 12.

(** The year-month label of a timestamp as the specification writes it:
    the year in decimal, a dash, and the month in decimal on two digits
    ([2024-01]). *)
Definition year_month_label (d : datetime) : string :=
  str_Z (Z.of_nat (year d)) +:+ "-" +:+
  (if Z.of_nat (month d) <? 10 then "0" else "") +:+ str_Z (Z.of_nat (month d)).

(** ** Entities (models returned by the store accessor) *)

Module User.
Record t := { id : Z; role : string }.
End User.

Module InventoryItem.
Record t := { id : Z; name : string; quantity : Z }.
End InventoryItem.

Module OrderItem.
Record t := {
  id : Z;
  orderId : Z;
  itemId : Z;
  quantity : Z;
  item : option InventoryItem.t   (* relation, present when included *)
}.
End OrderItem.

Module Customer.
Record t := { id : Z }.
End Customer.

Module Order.
Record t := {
  id : Z;
  placedAt : datetime;
  customerId : Z;
  customer : option Customer.t;         (* relation, present when included *)
  items : option (list OrderItem.t)     (* relation, present when included *)
}.
End Order.

Module InventoryLog.
Record t := {
  id : Z;
  itemId : Z;
  changedBy : Z;
  changeType : string;
  amount : Z
}.
End InventoryLog.

(** Attribute access through a possibly-[None] object. *)
Definition getattr {A B} (attr : string) (f : A → B) (o : option A) : Result B :=
  match o with
  | Some a => Ok (f a)
  | None =>
      Raise (Exn AttributeError
               ("'NoneType' object has no attribute '" +:+ attr +:+ "'"))
  end.

(** Iterating a possibly-[None] list. *)
Definition iter {A} (o : option (list A)) : Result (list A) :=
  match o with
  | Some l => Ok l
  | None => Raise (Exn TypeError "'NoneType' object is not iterable")
  end.

(** ** analyzeSalesTrends: the in-memory aggregation

    Lines 67-101 of [analyzeSalesTrends_service.py], from the initialisation
    of the three accumulators to the construction of the response:
    [sales_trends_arguments] is lines 67-96, up to the values handed to the
    model class, and [aggregate_sales_trends] adds the call of the model
    class on line 97. *)

Module SalesTrendsResponse.
(** [{"order_count": ..., "segments": [...]}] *)
Record CustomerTrend := {
  order_count : Z;
  segments : list (option string)
}.

(** The model as declared: [customer_trends: Dict[str, Dict]]. *)
Record t := {
  peak_periods : list string;
  top_products : list string;
  customer_trends : dict string CustomerTrend
}.
End SalesTrendsResponse.

(** The keyword arguments of the call [SalesTrendsResponse(...)] on line
    97: the customer entries are keyed by the integer customer ids. *)
Module SalesTrendsArguments.
Record t := {
  peak_periods : list string;
  top_products : list string;
  customer_trends : dict Z SalesTrendsResponse.CustomerTrend
}.
End SalesTrendsArguments.

(** Keys of a [Dict[str, ...]] field as pydantic 1 stores them: every
    integer key is replaced by its decimal string. *)
Definition coerce_keys {V} (d : dict Z V) : dict string V :=
  fold_left (fun acc entry => dict_set acc (str_Z entry.1) entry.2) d [].

(** Validation of the fields by the model class.  The two list fields hold
    strings as declared.  An integer key of [customer_trends] is turned into
    a string by pydantic 1 and refused by pydantic 2; [ValidationError] is
    a [ValueError].  Of its message, which lists every refused key, only
    the place of the first one is kept. *)
Definition SalesTrendsResponse_init (pydantic_v2 : bool)
    (args : SalesTrendsArguments.t) : Result SalesTrendsResponse.t :=
  if pydantic_v2 then
    match SalesTrendsArguments.customer_trends args with
    | [] =>
        Ok {| SalesTrendsResponse.peak_periods :=
                SalesTrendsArguments.peak_periods args;
              SalesTrendsResponse.top_products :=
                SalesTrendsArguments.top_products args;
              SalesTrendsResponse.customer_trends := [] |}
    | (customer_id, _) :: _ =>
        Raise (Exn ValidationError
                 ("customer_trends." +:+ str_Z customer_id
                  +:+ ".[key]: Input should be a valid string"))
    end
  else
    Ok {| SalesTrendsResponse.peak_periods :=
            SalesTrendsArguments.peak_periods args;
          SalesTrendsResponse.top_products :=
            SalesTrendsArguments.top_products args;
          SalesTrendsResponse.customer_trends :=
            coerce_keys (SalesTrendsArguments.customer_trends args) |}.

(** [{"count": ..., "segments": set()}] *)
Module TrendEntry.
Record t := { count : Z; segments : gset (option string) }.
End TrendEntry.

(** The three accumulators the loop over [orders] updates. *)
Record tallies := {
  peak_periods : list string;
  top_products_count : dict string Z;
  customers_trend : dict Z TrendEntry.t
}.

(** Body of [for item in order.items]. *)
Definition tally_item (top_products_count : dict string Z) (item : OrderItem.t)
  : Result (dict string Z) :=
  product_name ← getattr "name" InventoryItem.name (OrderItem.item item);
  let top_products_count :=
    if dict_contains top_products_count product_name
    then top_products_count
    else dict_set top_products_count product_name 0 in
  old ← dict_getitem top_products_count product_name;
  mret (dict_set top_products_count product_name (old + OrderItem.quantity item)).

(** Body of [for order in orders]. *)
Definition tally_order (customer_segment : option string)
    (acc : tallies) (order : Order.t) : Result tallies :=
  let month := strftime_Ym (Order.placedAt order) in
  let peak_periods := peak_periods acc ++ [month] in
  items ← iter (Order.items order);
  top_products_count ← for_each tally_item items (top_products_count acc);
  customer_id ← getattr "id" Customer.id (Order.customer order);
  let customers_trend :=
    if dict_contains (customers_trend acc) customer_id
    then customers_trend acc
    else dict_set (customers_trend acc) customer_id
           {| TrendEntry.count := 0; TrendEntry.segments := ∅ |} in
  e ← dict_getitem customers_trend customer_id;
  let customers_trend :=
    dict_set customers_trend customer_id
      {| TrendEntry.count := TrendEntry.count e + 1;
         TrendEntry.segments := TrendEntry.segments e |} in
  e ← dict_getitem customers_trend customer_id;
  let customers_trend :=
    dict_set customers_trend customer_id
      {| TrendEntry.count := TrendEntry.count e;
         TrendEntry.segments := TrendEntry.segments e ∪ {[customer_segment]} |} in
  mret {| peak_periods := peak_periods;
          top_products_count := top_products_count;
          customers_trend := customers_trend |}.

(** [[period for period, count in items if count == max(all.values())]];
    the maximum is recomputed for every entry visited. *)
Fixpoint top_peak_filter (items : list (string * Z))
    (peak_periods_count : dict string Z) : Result (list string) :=
  match items with
  | [] => Ok []
  | (period, count) :: rest =>
      m ← py_max (dict_values peak_periods_count);
      selected ← top_peak_filter rest peak_periods_count;
      mret (if decide (count = m) then period :: selected else selected)
  end.

Definition format_customer_trend (entry : Z * TrendEntry.t)
  : Z * SalesTrendsResponse.CustomerTrend :=
  (entry.1,
   {| SalesTrendsResponse.order_count := TrendEntry.count entry.2;
      SalesTrendsResponse.segments := elements (TrendEntry.segments entry.2) |}).

Definition sales_trends_arguments (customer_segment : option string)
    (orders : list Order.t) : Result SalesTrendsArguments.t :=
  acc ← for_each (tally_order customer_segment) orders
          {| peak_periods := []; top_products_count := [];
             customers_trend := [] |};
  let peak_periods_count := Counter (peak_periods acc) in
  top_peak_periods ←
    top_peak_filter (dict_items peak_periods_count) peak_periods_count;
  let sorted_top_products :=
    take 5 (sorted_reverse snd (dict_items (top_products_count acc))) in
  let top_products := sorted_top_products.*1 in
  let formatted_customer_trends :=
    format_customer_trend <$> dict_items (customers_trend acc) in
  mret {| SalesTrendsArguments.peak_periods := top_peak_periods;
          SalesTrendsArguments.top_products := top_products;
          SalesTrendsArguments.customer_trends := formatted_customer_trends |}.

Definition aggregate_sales_trends (pydantic_v2 : bool)
    (customer_segment : option string) (orders : list Order.t)
  : Result SalesTrendsResponse.t :=
  args ← sales_trends_arguments customer_segment orders;
  SalesTrendsResponse_init pydantic_v2 args.

(** *** Reference quantities the aggregation is compared with *)

(** An order as the contract describes it: placement timestamp, linked
    customer, and line items each linked to a named product. *)
Definition well_formed_item (item : OrderItem.t) : Prop :=
  is_Some (OrderItem.item item).

Definition well_formed_order (order : Order.t) : Prop :=
  is_Some (Order.customer order) ∧
  from_option (Forall well_formed_item) False (Order.items order).

#[global] Instance well_formed_order_dec order : Decision (well_formed_order order).
Proof.
  unfold well_formed_order, well_formed_item.
  destruct (Order.items order); simpl; apply _.
Defined.

(** The period label of an order. *)
Definition period_of (order : Order.t) : string :=
  strftime_Ym (Order.placedAt order).

(** Two orders placed in the same month of the same year, and the number
    of orders placed in the month of [order]. *)
Definition same_month (order order' : Order.t) : Prop :=
  year (Order.placedAt order') = year (Order.placedAt order) ∧
  month (Order.placedAt order') = month (Order.placedAt order).

Definition orders_in_month_of (order : Order.t) (orders : list Order.t) : Z :=
  Z.of_nat (length (filter (same_month order) orders)).

(** Number of orders placed in period [p]. *)
Definition orders_in_period (p : string) (orders : list Order.t) : Z :=
  Z.of_nat (length (filter (fun o => period_of o = p) orders)).

(** All (product name, quantity) line items, in the order the loops visit
    them. *)
Definition line_of (item : OrderItem.t) : list (string * Z) :=
  match OrderItem.item item with
  | Some inv => [(InventoryItem.name inv, OrderItem.quantity item)]
  | None => []
  end.

Definition line_items (orders : list Order.t) : list (string * Z) :=
  order ← orders; item ← default [] (Order.items order); line_of item.

(** Total quantity of product [p] over a sequence of line items. *)
Fixpoint total_quantity (p : string) (lines : list (string * Z)) : Z :=
  match lines with
  | [] => 0
  | (n, q) :: rest =>
      (if decide (n = p) then q else 0) + total_quantity p rest
  end.

(** Position of the first occurrence of [k] ([length l] when absent). *)
Fixpoint first_pos {K} `{EqDecision K} (k : K) (l : list K) : nat :=
  match l with
  | [] => 0%nat
  | x :: l' => if decide (x = k) then 0%nat else S (first_pos k l')
  end.

(** [p] ranks before [q]: it sold more, or as much and was encountered
    first. *)
Definition ranks_before (lines : list (string * Z)) (p q : string) : Prop :=
  total_quantity q lines < total_quantity p lines ∨
  (total_quantity p lines = total_quantity q lines ∧
   (first_pos p lines.*1 < first_pos q lines.*1)%nat).

(** The customer ids of the orders, in order. *)
Definition customer_ids (orders : list Order.t) : list Z :=
  order ← orders;
  match Order.customer order with Some c => [Customer.id c] | None => [] end.

(** Number of orders of customer [c]. *)
Definition orders_of_customer (c : Z) (orders : list Order.t) : Z :=
  Z.of_nat (length (filter (fun c' => c' = c) (customer_ids orders))).

(** *** Accumulating into a dictionary

    All three dictionaries of the aggregation are filled the same way: for
    each visited element [a], the entry under [key a] is created from [init]
    if missing and then replaced by [upd a] of its value.  [accumulate] is
    that loop written as a fold; the aggregation is shown to compute it. *)

Section AccumulateDefs.
Context {A K V : Type} `{EqDecision K}.
Context (key : A → K) (upd : A → V → V) (init : V).

Definition upsert (d : dict K V) (a : A) : dict K V :=
  dict_set d (key a) (upd a (default init (dict_get d (key a)))).

Definition accumulate (xs : list A) : dict K V := fold_left upsert xs [].

(** What the entry of [k] must hold after visiting [xs]. *)
Definition value_of (k : K) (xs : list A) : V :=
  fold_left (fun v a => if decide (key a = k) then upd a v else v) xs init.
End AccumulateDefs.

(** The three updates the aggregation applies: count one more occurrence,
    add the quantity of a line item, record one more order of a customer. *)
Definition count_one {A} (_ : A) (n : Z) : Z := n + 1.

Definition add_line (line : string * Z) (total : Z) : Z := total + line.2.

Definition add_order (customer_segment : option string) (_ : Z)
    (e : TrendEntry.t) : TrendEntry.t :=
  {| TrendEntry.count := TrendEntry.count e + 1;
     TrendEntry.segments := TrendEntry.segments e ∪ {[customer_segment]} |}.

Definition no_orders : TrendEntry.t :=
  {| TrendEntry.count := 0; TrendEntry.segments := ∅ |}.

(** [p] is first encountered in [ks] before [q] is. *)
Definition seen_before {K} `{EqDecision K} (ks : list K) (p q : K) : Prop :=
  (first_pos p ks < first_pos q ks)%nat.

(** ** The entity store and the handler monad *)

Record Store := {
  inventoryItems : gmap Z InventoryItem.t;
  inventoryLogs : list InventoryLog.t;
  orderItems : gmap Z OrderItem.t;
  orders : gmap Z Order.t
}.

(** A request issued to the store accessor. *)
Inductive Call :=
| FindUnique (model : string) (id : Z)
| FindMany (model : string)
| Update (model : string) (id : Z)
| Create (model : string)
| Delete (model : string) (id : Z).

Definition is_write (c : Call) : bool :=
  match c with
  | FindUnique _ _ | FindMany _ => false
  | Update _ _ | Create _ | Delete _ _ => true
  end.

(** The world a handler runs in.  [outage = Some n] means that [n] more
    store requests are served and the one after them raises (connection
    loss, constraint violation, ...); [None] means every request is served.
    [calls] records the requests issued so far. *)
Record World := {
  store : Store;
  outage : option nat;
  calls : list Call
}.

Definition M (A : Type) : Type := World → Result A * World.

#[global] Instance M_ret : MRet M := fun A a w => (Ok a, w).
#[global] Instance M_bind : MBind M := fun A B f m w =>
  match m w with
  | (Ok a, w') => f a w'
  | (Raise e, w') => (Raise e, w')
  end.

Definition lift {A} (r : Result A) : M A := fun w => (r, w).
Definition raise {A} (e : exn) : M A := lift (Raise e).

(** The world after request [c] was served, leaving the store as [st], and
    after it was refused. *)
Definition served (w : World) (c : Call) (st : Store) : World :=
  {| store := st; outage := Nat.pred <$> outage w; calls := calls w ++ [c] |}.

Definition refused (w : World) (c : Call) : World :=
  {| store := store w; outage := None; calls := calls w ++ [c] |}.

(** One awaited request: it is recorded, then either served or refused. *)
Definition store_call {A} (c : Call) (serve : Store → A * Store) : M A :=
  fun w =>
    match outage w with
    | Some O => (Raise (Exn PrismaError "store request failed"), refused w c)
    | _ => let (a, st) := serve (store w) in (Ok a, served w c st)
    end.

(** [await asyncio.gather] over the coroutines [cs], run one after the other. *)
Fixpoint gather {A} (cs : list (M A)) : M (list A) :=
  match cs with
  | [] => mret []
  | c :: cs' => a ← c; rest ← gather cs'; mret (a :: rest)
  end.

(** Declarations of the generated client that the handlers read but that
    are not part of [src/project]. *)

(** [where] argument built by [analyzeSalesTrends]. *)
Record OrderWhere := {
  placedAt_gte : string;
  placedAt_lte : string;
  items_some_item_name : option string;
  customer_segment_is : option string
}.

Record PrismaClient := {
  (** member names declared by [prisma.enums.Role] *)
  Role_members : list string;
  (** outcome of the class-level expression
      [prisma.models.InventoryItem.quantity]: the model classes are pydantic
      models, on which a field without default is no attribute of the
      class, so that a generated client gives [Raise] with an
      [AttributeError] *)
  InventoryItem_quantity : Result Z;
  (** whether the models are built on pydantic 2 (otherwise pydantic 1) *)
  pydantic_v2 : bool;
  (** rows, with [items.item] and [customer] included, that the store
      returns for a [where] filter *)
  Order_where : OrderWhere → Store → list Order.t
}.

(** *** Store requests *)

Definition InventoryItem_find_unique (id : Z) : M (option InventoryItem.t) :=
  store_call (FindUnique "InventoryItem" id)
    (fun st => (inventoryItems st !! id, st)).

(** [data={"quantity": v}] or [data={"quantity": {"increment": n}}] *)
Inductive IntUpdate :=
| SetTo (v : Z)
| Increment (n : Z).

Definition apply_update (u : IntUpdate) (old : Z) : Z :=
  match u with
  | SetTo v => v
  | Increment n => old + n
  end.

Definition InventoryItem_update (id : Z) (quantity : IntUpdate)
  : M (option InventoryItem.t) :=
  store_call (Update "InventoryItem" id)
    (fun st =>
       match inventoryItems st !! id with
       | None => (None, st)
       | Some it =>
           let it' :=
             {| InventoryItem.id := InventoryItem.id it;
                InventoryItem.name := InventoryItem.name it;
                InventoryItem.quantity :=
                  apply_update quantity (InventoryItem.quantity it) |} in
           (Some it',
            {| inventoryItems := <[id := it']> (inventoryItems st);
               inventoryLogs := inventoryLogs st;
               orderItems := orderItems st;
               orders := orders st |})
       end).

Definition InventoryLog_create (itemId changedBy : Z) (changeType : string)
    (amount : Z) : M InventoryLog.t :=
  store_call (Create "InventoryLog")
    (fun st =>
       let log :=
         {| InventoryLog.id := Z.of_nat (S (length (inventoryLogs st)));
            InventoryLog.itemId := itemId;
            InventoryLog.changedBy := changedBy;
            InventoryLog.changeType := changeType;
            InventoryLog.amount := amount |} in
       (log,
        {| inventoryItems := inventoryItems st;
           inventoryLogs := inventoryLogs st ++ [log];
           orderItems := orderItems st;
           orders := orders st |})).

Definition OrderItem_find_unique (id : Z) : M (option OrderItem.t) :=
  store_call (FindUnique "OrderItem" id)
    (fun st => (orderItems st !! id, st)).

Definition OrderItem_delete (id : Z) : M (option OrderItem.t) :=
  store_call (Delete "OrderItem" id)
    (fun st =>
       (orderItems st !! id,
        {| inventoryItems := inventoryItems st;
           inventoryLogs := inventoryLogs st;
           orderItems := delete id (orderItems st);
           orders := orders st |})).

(** The line items of order [orderId] held by the store. *)
Definition items_of_order (st : Store) (orderId : Z) : list OrderItem.t :=
  filter (fun it => OrderItem.orderId it = orderId)
    (map_to_list (orderItems st)).*2.

(** [find_unique(where={"id": orderId}, include={"items": True})] *)
Definition Order_find_unique_include_items (orderId : Z) : M (option Order.t) :=
  store_call (FindUnique "Order" orderId)
    (fun st =>
       ((fun o =>
           {| Order.id := Order.id o;
              Order.placedAt := Order.placedAt o;
              Order.customerId := Order.customerId o;
              Order.customer := None;
              Order.items := Some (items_of_order st orderId) |})
          <$> orders st !! orderId,
        st)).

Definition Order_delete (id : Z) : M (option Order.t) :=
  store_call (Delete "Order" id)
    (fun st =>
       (orders st !! id,
        {| inventoryItems := inventoryItems st;
           inventoryLogs := inventoryLogs st;
           orderItems := orderItems st;
           orders := delete id (orders st) |})).

(** Evaluation of a list display, left to right. *)
Fixpoint eval_list {A} (es : list (Result A)) : Result (list A) :=
  match es with
  | [] => Ok []
  | e :: es' => a ← e; rest ← eval_list es'; mret (a :: rest)
  end.

(** Truthiness of an optional string: [None] and [""] are false. *)
Definition truthy (s : option string) : bool :=
  match s with
  | Some s => negb (bool_decide (s = ""))
  | None => false
  end.

(** [name] looked up in a module's global names (it is no builtin). *)
Definition load_global (globals : list string) (name : string) : Result unit :=
  if bool_decide (name ∈ globals) then Ok ()
  else Raise (Exn NameError ("name '" +:+ name +:+ "' is not defined")).

(** *** Response models

    The three models below are built from values of the types their fields
    declare ([int], [str], [bool]), which the model class takes as they
    are. *)

Module SalesRecordResponse.
Record t := {
  sale_id : Z;
  inventory_update_status : string;
  financial_record_status : string
}.
End SalesRecordResponse.

Module DeleteOrderResponse.
Record t := { success : bool; message : string }.
End DeleteOrderResponse.

Module DeleteSalesResponse.
Record t := { success : bool; message : string }.
End DeleteSalesResponse.

(** [fastapi.responses.Response(content=..., status_code=..., media_type=...)].
    The constructor renders its content into the body: [None] gives the
    empty body, bytes are taken as they are, and anything else is sent
    [.encode(charset)], which a [dict] does not have. *)
Inductive Content :=
| NoContent
| Bytes (b : string)
| Text (s : string)
| Mapping (d : dict string string).

Module Response.
Record t := {
  body : string;
  status_code : Z;
  media_type : string
}.
End Response.

Definition render (content : Content) : Result string :=
  match content with
  | NoContent => Ok ""
  | Bytes b => Ok b
  | Text s => Ok s
  | Mapping _ =>
      Raise (Exn AttributeError "'dict' object has no attribute 'encode'")
  end.

Definition Response_init (content : Content) (status_code : Z)
    (media_type : string) : Result Response.t :=
  body ← render content;
  mret {| Response.body := body;
          Response.status_code := status_code;
          Response.media_type := media_type |}.

(** [try: body  except Exception as e: handler(e)]; every class of [exn]
    derives from [Exception]. *)
Definition try_except {A} (body : M A) (handler : exn → M A) : M A :=
  fun w =>
    match body w with
    | (Ok a, w') => (Ok a, w')
    | (Raise e, w') => handler e w'
    end.

(** Names bound at module level in [deleteOrder_service.py]: its imports,
    its class and its function. *)
Definition deleteOrder_globals : list string :=
  ["Annotated"; "prisma"; "Depends"; "BaseModel"; "DeleteOrderResponse";
   "deleteOrder"].

Section Handlers.
Context (prisma : PrismaClient).

(** [prisma.enums.Role.<name>] *)
Definition Role_attr (name : string) : Result string :=
  if bool_decide (name ∈ Role_members prisma) then Ok name
  else Raise (Exn AttributeError name).

(** [role not in [Role.a, Role.b, ...]] *)
Definition role_not_in (role : string) (names : list string) : Result bool :=
  allowed ← eval_list (Role_attr <$> names);
  mret (negb (bool_decide (role ∈ allowed))).

Definition Order_find_many (filters : OrderWhere) : M (list Order.t) :=
  store_call (FindMany "Order") (fun st => (Order_where prisma filters st, st)).

(** *** analyzeSalesTrends_service.py *)

Definition analyzeSalesTrends (start_date end_date : string)
    (product customer_segment : option string)
    (current_user : option User.t) : M SalesTrendsResponse.t :=
  denied ← lift
    match current_user with
    | None => Ok true
    | Some user =>
        role_not_in (User.role user) ["SalesManager"; "AnalyticsManager"]
    end;
  if denied : bool then
    raise (Exn PermissionError
             "Access denied: user is not authorized or not active.")
  else
    let filters :=
      {| placedAt_gte := start_date;
         placedAt_lte := end_date;
         items_some_item_name := if truthy product then product else None;
         customer_segment_is :=
           if truthy customer_segment then customer_segment else None |} in
    orders ← Order_find_many filters;
    lift (aggregate_sales_trends (pydantic_v2 prisma) customer_segment orders).

(** *** addSalesRecord_service.py

    The [sale_price] argument is never read by the body and is left out. *)

Definition addSalesRecord (product_id quantity : Z)
    (current_user : option User.t) : M SalesRecordResponse.t :=
  inventory_item ← InventoryItem_find_unique product_id;
  match inventory_item with
  | None => raise (Exn ValueError "Inventory item not found")
  | Some inventory_item =>
      if InventoryItem.quantity inventory_item <? quantity then
        raise (Exn ValueError "Insufficient stock available")
      else
        class_quantity ← lift (InventoryItem_quantity prisma);
        updated_inventory ←
          InventoryItem_update product_id (SetTo (class_quantity - quantity));
        changedBy ← lift (getattr "id" User.id current_user);
        inventory_log ← InventoryLog_create product_id changedBy "Sold" quantity;
        updated_quantity ←
          lift (getattr "quantity" InventoryItem.quantity updated_inventory);
        mret
          {| SalesRecordResponse.sale_id := InventoryLog.id inventory_log;
             SalesRecordResponse.inventory_update_status :=
               "Inventory updated to " +:+ str_Z updated_quantity +:+ " units.";
             SalesRecordResponse.financial_record_status :=
               "Financial transaction logged successfully." |}
  end.

(** *** deleteOrder_service.py *)

Definition deleteOrder (orderId : Z) (current_user : option User.t)
  : M DeleteOrderResponse.t :=
  role ← lift (getattr "role" User.role current_user);
  denied ← lift (role_not_in role ["Admin"; "OrderFulfillmentOfficer"]);
  if denied : bool then
    mret {| DeleteOrderResponse.success := false;
            DeleteOrderResponse.message := "Permission denied." |}
  else
    order ← Order_find_unique_include_items orderId;
    match order with
    | None =>
        mret {| DeleteOrderResponse.success := false;
                DeleteOrderResponse.message := "Order not found." |}
    | Some order =>
        items ← lift (iter (Order.items order));
        (* coroutine objects: built here, run only if awaited *)
        let updates :=
          (fun item =>
             InventoryItem_update (OrderItem.itemId item)
               (Increment (OrderItem.quantity item))) <$> items in
        _ ← lift (load_global deleteOrder_globals "asyncio");
        _ ← gather updates;
        _ ← Order_delete orderId;
        mret {| DeleteOrderResponse.success := true;
                DeleteOrderResponse.message :=
                  "Order successfully deleted and inventory updated." |}
    end.

(** *** deleteSalesRecord_service.py *)

Definition deleteSalesRecord (id : Z) (current_user : option User.t)
  : M DeleteSalesResponse.t :=
  role ← lift (getattr "role" User.role current_user);
  denied ← lift (role_not_in role ["SalesManager"; "Admin"]);
  if denied : bool then
    mret {| DeleteSalesResponse.success := false;
            DeleteSalesResponse.message :=
              "Insufficient permission to delete sales records." |}
  else
    order_item ← OrderItem_find_unique id;
    match order_item with
    | None =>
        mret {| DeleteSalesResponse.success := false;
                DeleteSalesResponse.message := "Sales record not found." |}
    | Some order_item =>
        inventory_item ←
          InventoryItem_find_unique (OrderItem.itemId order_item);
        _ ← match inventory_item with
            | Some _ =>
                _ ← InventoryItem_update (OrderItem.itemId order_item)
                      (Increment (OrderItem.quantity order_item));
                changedBy ← lift (getattr "id" User.id current_user);
                _ ← InventoryLog_create (OrderItem.itemId order_item)
                      changedBy "Adjusted" (OrderItem.quantity order_item);
                mret ()
            | None => mret ()
            end;
        _ ← OrderItem_delete id;
        mret {| DeleteSalesResponse.success := true;
                DeleteSalesResponse.message :=
                  "Sales record deleted successfully and inventory restored." |}
    end.

(** *** server.py: [GET /sales/trends]

    [jsonable_encoder] leaves a dictionary of strings as it is, so the
    [except] block hands the dictionary itself to [Response]. *)

Definition api_get_analyzeSalesTrends (start_date end_date : string)
    (product customer_segment : option string)
    (current_user : option User.t)
  : M (SalesTrendsResponse.t + Response.t) :=
  try_except
    (res ← analyzeSalesTrends start_date end_date product customer_segment
             current_user;
     mret (inl res))
    (fun e =>
       let res := dict_set [] "error" (str_exn e) in
       response ← lift (Response_init (Mapping res) 500 "application/json");
       mret (inr response)).
End Handlers.

(** ** Sample data

    Three orders: product A x3 and product B x1 in 2024-01 (customers 7 and
    8), product A x2 in 2024-02 (customer 7). *)

Definition sample_product (name : string) : InventoryItem.t :=
  {| InventoryItem.id := 1; InventoryItem.name := name;
     InventoryItem.quantity := 10 |}.

Definition sample_line (name : string) (quantity : Z) : OrderItem.t :=
  {| OrderItem.id := 1; OrderItem.orderId := 1; OrderItem.itemId := 1;
     OrderItem.quantity := quantity;
     OrderItem.item := Some (sample_product name) |}.

Definition sample_order (y m : nat) (customer : Z) (lines : list OrderItem.t)
  : Order.t :=
  {| Order.id := 1;
     Order.placedAt := {| year := y; month := m; day := 1 |};
     Order.customerId := customer;
     Order.customer := Some {| Customer.id := customer |};
     Order.items := Some lines |}.

Definition sample_orders : list Order.t :=
  [sample_order 2024 1 7 [sample_line "ProductA" 3];
   sample_order 2024 1 8 [sample_line "ProductB" 1];
   sample_order 2024 2 7 [sample_line "ProductA" 2]].

(** Two months with two orders each and a third with one. *)
Definition sample_tie_orders : list Order.t :=
  [sample_order 2024 3 1 []; sample_order 2023 12 2 [];
   sample_order 2024 3 1 []; sample_order 2023 12 2 [];
   sample_order 2024 1 3 []].

(** The client as the source describes it: the roles the handlers mention
    except [AnalyticsManager], which line 56 of
    [analyzeSalesTrends_service.py] reports as no member of the enumeration;
    a model class without class-level field attributes; pydantic 2.  The
    store has one product in stock, one order and its line item. *)
Definition sample_prisma : PrismaClient :=
  {| Role_members :=
       ["Admin"; "SalesManager"; "InventoryManager";
        "OrderFulfillmentOfficer"; "HumanResourcesManager";
        "CustomerServiceRepresentative"; "SupplyChainCoordinator"];
     InventoryItem_quantity := Raise (Exn AttributeError "quantity");
     pydantic_v2 := true;
     Order_where := fun _ _ => sample_orders |}.

Definition sample_store : Store :=
  {| inventoryItems := {[ 1 := sample_product "ProductA" ]};
     inventoryLogs := [];
     orderItems := {[ 1 := sample_line "ProductA" 3 ]};
     orders := {[ 1 := sample_order 2024 1 7 [] ]} |}.

Definition sample_world (outage : option nat) : World :=
  {| store := sample_store; outage := outage; calls := [] |}.

Definition sample_user (role : string) : User.t :=
  {| User.id := 42; User.role := role |}.

(** ** The routes of [server.py] over the write handlers

    Each route wraps its handler in the same [try] / [except Exception]
    block as [api_get_analyzeSalesTrends]. *)

Section Routes.
Context (prisma : PrismaClient).

(** [POST /sales] (the unused [sale_price] is left out as in the handler). *)
Definition api_post_addSalesRecord (product_id quantity : Z)
    (current_user : option User.t)
  : M (SalesRecordResponse.t + Response.t) :=
  try_except
    (res ← addSalesRecord prisma product_id quantity current_user;
     mret (inl res))
    (fun e =>
       let res := dict_set [] "error" (str_exn e) in
       response ← lift (Response_init (Mapping res) 500 "application/json");
       mret (inr response)).

(** [DELETE /orders/{orderId}] *)
Definition api_delete_deleteOrder (orderId : Z) (current_user : option User.t)
  : M (DeleteOrderResponse.t + Response.t) :=
  try_except
    (res ← deleteOrder prisma orderId current_user;
     mret (inl res))
    (fun e =>
       let res := dict_set [] "error" (str_exn e) in
       response ← lift (Response_init (Mapping res) 500 "application/json");
       mret (inr response)).

(** [DELETE /sales/{id}] *)
Definition api_delete_deleteSalesRecord (id : Z) (current_user : option User.t)
  : M (DeleteSalesResponse.t + Response.t) :=
  try_except
    (res ← deleteSalesRecord prisma id current_user;
     mret (inl res))
    (fun e =>
       let res := dict_set [] "error" (str_exn e) in
       response ← lift (Response_init (Mapping res) 500 "application/json");
       mret (inr response)).
End Routes.


(** ** [get_current_active_user] of [analyzeSalesTrends_service.py]

    The user table is not one of the tables of [Store]; its rows are passed
    in, in the order the store returns them. *)

Module UserRow.
Record t := { user : User.t; disabled : bool }.
End UserRow.

(** [User.prisma().find_many(where={"disabled": False})] *)
Definition User_find_many_not_disabled (table : list UserRow.t)
  : M (list User.t) :=
  store_call (FindMany "User")
    (fun st =>
       (UserRow.user <$> filter (fun row => UserRow.disabled row = false) table,
        st)).

Definition get_current_active_user (table : list UserRow.t)
  : M (option User.t) :=
  users ← User_find_many_not_disabled table;
  mret (match users with
        | user :: _ => Some user
        | [] => None
        end).

(** ** What a run may change

    Relations between the world before and after a run, used to state what
    a handler leaves alone. *)

(** Only read requests were issued, and the store is as it was. *)
Definition reads_only (w w' : World) : Prop :=
  store w' = store w ∧
  ∃ issued, calls w' = calls w ++ issued ∧
            Forall (fun c => is_write c = false) issued.

(** At most the inventory row [product_id] was rewritten and log entries
    were appended. *)
Definition sale_frame (product_id : Z) (w w' : World) : Prop :=
  orders (store w') = orders (store w) ∧
  orderItems (store w') = orderItems (store w) ∧
  dom (inventoryItems (store w')) = dom (inventoryItems (store w)) ∧
  (∀ j, j ≠ product_id →
        inventoryItems (store w') !! j = inventoryItems (store w) !! j) ∧
  ∃ new, inventoryLogs (store w') = inventoryLogs (store w) ++ new.

(** At most the order item [id] was removed, existing inventory rows were
    rewritten and log entries were appended. *)
Definition delete_sale_frame (id : Z) (w w' : World) : Prop :=
  orders (store w') = orders (store w) ∧
  (∀ j, j ≠ id → orderItems (store w') !! j = orderItems (store w) !! j) ∧
  dom (inventoryItems (store w')) = dom (inventoryItems (store w)) ∧
  ∃ new, inventoryLogs (store w') = inventoryLogs (store w) ++ new.

(** Every run of [m] relates the world it starts in to the one it leaves. *)
Definition preserves {A} (R : relation World) (m : M A) : Prop :=
  ∀ w, R w (m w).2.

(** Every value [m] returns satisfies [P]. *)
Definition returns_only {A} (P : A → Prop) (m : M A) : Prop :=
  ∀ w a w', m w = (Ok a, w') → P a.

(** Sum of [weight] over the values of a dictionary. *)
Definition dict_sum {K V} (weight : V → Z) (d : dict K V) : Z :=
  foldr (fun entry n => weight entry.2 + n) 0 d.

(** Sum of the [order_count] fields of a [customer_trends] dictionary. *)
Definition total_order_count {K}
    (trends : dict K SalesTrendsResponse.CustomerTrend) : Z :=
  dict_sum SalesTrendsResponse.order_count trends.

(** A user table with a disabled first row. *)
Definition sample_users : list UserRow.t :=
  [{| UserRow.user := sample_user "Admin"; UserRow.disabled := true |};
   {| UserRow.user := sample_user "SalesManager"; UserRow.disabled := false |};
   {| UserRow.user := sample_user "InventoryManager"; UserRow.disabled := false |}].

(** A store whose only order item refers to a product that is gone. *)
Definition sample_store_without_product : Store :=
  {| inventoryItems := ∅;
     inventoryLogs := [];
     orderItems := {[ 1 := sample_line "ProductA" 3 ]};
     orders := {[ 1 := sample_order 2024 1 7 [] ]} |}.

(** * Properties *)

(** ** Dictionaries *)

Section DictFacts.
Context {K V : Type} `{EqDecision K}.
Implicit Types (d : dict K V) (k : K) (v : V).

Lemma dict_get_set_eq d k v : dict_get (dict_set d k v) k = Some v.
Proof.
  induction d as [|[k' v'] d IH]; simpl.
  - by rewrite decide_True.
  - destruct (decide (k' = k)) as [->|Hne]; simpl.
    + by rewrite decide_True.
    + by rewrite decide_False.
Qed.

Lemma dict_get_set_ne d k k' v :
  k ≠ k' → dict_get (dict_set d k v) k' = dict_get d k'.
Proof.
  intros Hne. induction d as [|[k0 v0] d IH]; simpl.
  - by rewrite decide_False.
  - destruct (decide (k0 = k)) as [->|Hk0]; simpl.
    + by rewrite !decide_False.
    + by rewrite IH.
Qed.

Lemma dict_set_set d k v v' : dict_set (dict_set d k v) k v' = dict_set d k v'.
Proof.
  induction d as [|[k0 v0] d IH]; simpl.
  - by rewrite decide_True.
  - destruct (decide (k0 = k)) as [->|Hk0]; simpl.
    + by rewrite decide_True.
    + by rewrite decide_False, IH.
Qed.

Lemma dict_get_Some_elem d k v : dict_get d k = Some v → (k, v) ∈ d.
Proof.
  induction d as [|[k0 v0] d IH]; simpl; [done|].
  destruct (decide (k0 = k)) as [->|Hk0].
  - intros [= ->]. left.
  - intros Hd. right. auto.
Qed.

Lemma dict_get_None_keys d k : dict_get d k = None ↔ k ∉ dict_keys d.
Proof.
  unfold dict_keys. induction d as [|[k0 v0] d IH]; simpl.
  - split; [intros _; apply not_elem_of_nil | done].
  - rewrite not_elem_of_cons. destruct (decide (k0 = k)) as [->|Hk0].
    + split; [done | intros [? _]; done].
    + rewrite IH. split; [by intros ?; split; [congruence|] | by intros [_ ?]].
Qed.

Lemma dict_get_is_Some_keys d k : is_Some (dict_get d k) ↔ k ∈ dict_keys d.
Proof.
  destruct (dict_get d k) eqn:Hd.
  - split; [|eauto]. intros _.
    destruct (decide (k ∈ dict_keys d)) as [|Hn]; [done|].
    apply dict_get_None_keys in Hn. congruence.
  - split; [intros [? [=]]|]. intros Hin.
    apply dict_get_None_keys in Hd. done.
Qed.

Lemma dict_elem_get d k v : NoDup (dict_keys d) → (k, v) ∈ d → dict_get d k = Some v.
Proof.
  unfold dict_keys. induction d as [|[k0 v0] d IH]; simpl.
  - intros _ Hin. by apply elem_of_nil in Hin.
  - rewrite NoDup_cons. intros [Hk0 Hnd] Hin.
    apply elem_of_cons in Hin as [[= -> ->]|Hin].
    + by rewrite decide_True.
    + rewrite decide_False; [auto|].
      intros ->. apply Hk0. by apply (list_elem_of_fmap_2 fst _ (k, v)).
Qed.

(** Writing to a key already present keeps the key order; writing to a new
    key appends it. *)
Lemma dict_set_keys_present d k v :
  k ∈ dict_keys d → dict_keys (dict_set d k v) = dict_keys d.
Proof.
  unfold dict_keys. induction d as [|[k0 v0] d IH]; simpl.
  - intros Hin. by apply elem_of_nil in Hin.
  - intros Hin. destruct (decide (k0 = k)) as [->|Hk0]; simpl; [done|].
    apply elem_of_cons in Hin as [->|Hin]; [done|]. f_equal. by apply IH.
Qed.

Lemma dict_set_absent d k v : k ∉ dict_keys d → dict_set d k v = d ++ [(k, v)].
Proof.
  unfold dict_keys. induction d as [|[k0 v0] d IH]; simpl; [done|].
  rewrite not_elem_of_cons. intros [Hne Hnin].
  rewrite decide_False by done. by rewrite IH.
Qed.
End DictFacts.

(** ** Accumulating into a dictionary *)

Section Accumulate.
Context {A K V : Type} `{EqDecision K}.
Context (key : A → K) (upd : A → V → V) (init : V).

Local Abbreviation upsert := (upsert key upd init).
Local Abbreviation accumulate := (accumulate key upd init).
Local Abbreviation value_of := (value_of key upd init).

Lemma accumulate_snoc xs a : accumulate (xs ++ [a]) = upsert (accumulate xs) a.
Proof. unfold accumulate. by rewrite fold_left_app. Qed.

Lemma value_of_snoc k xs a :
  value_of k (xs ++ [a]) =
  if decide (key a = k) then upd a (value_of k xs) else value_of k xs.
Proof. unfold value_of. by rewrite fold_left_app. Qed.

Lemma accumulate_get xs k :
  (k ∈ (key <$> xs) ∧ dict_get (accumulate xs) k = Some (value_of k xs)) ∨
  ((k ∉ (key <$> xs)) ∧ dict_get (accumulate xs) k = None ∧ value_of k xs = init).
Proof.
  induction xs as [|a xs IH] using rev_ind.
  - right. split; [apply not_elem_of_nil | done].
  - rewrite accumulate_snoc, value_of_snoc, fmap_app. simpl. unfold upsert.
    destruct (decide (key a = k)) as [<-|Hne].
    + left. split; [apply elem_of_app; right; apply list_elem_of_singleton; done|].
      rewrite dict_get_set_eq.
      by destruct IH as [[_ ->]|(_ & -> & ->)].
    + rewrite dict_get_set_ne by done.
      destruct IH as [[Hin ->]|(Hnin & -> & ->)]; [left|right].
      * split; [|done]. apply elem_of_app. by left.
      * split; [|done]. rewrite elem_of_app, list_elem_of_singleton.
        intros [?|?]; [done|congruence].
Qed.

Lemma accumulate_lookup xs k :
  dict_get (accumulate xs) k =
  if bool_decide (k ∈ (key <$> xs)) then Some (value_of k xs) else None.
Proof.
  destruct (accumulate_get xs k) as [[Hin ->]|(Hnin & -> & _)].
  - by rewrite bool_decide_eq_true_2.
  - by rewrite bool_decide_eq_false_2.
Qed.

Lemma accumulate_keys_elem xs k :
  k ∈ dict_keys (accumulate xs) ↔ k ∈ (key <$> xs).
Proof.
  rewrite <-dict_get_is_Some_keys.
  destruct (accumulate_get xs k) as [[Hin ->]|(Hnin & -> & _)].
  - split; eauto.
  - split; [intros [? [=]] | done].
Qed.
End Accumulate.

(** ** Order of first encounter *)

Section FirstPos.
Context {K : Type} `{EqDecision K}.
Implicit Types (k : K) (l : list K).

Lemma first_pos_lt k l : k ∈ l → (first_pos k l < length l)%nat.
Proof.
  induction l as [|x l IH]; simpl.
  - intros Hin. by apply elem_of_nil in Hin.
  - intros Hin. destruct (decide (x = k)) as [->|Hne]; [lia|].
    apply elem_of_cons in Hin as [->|Hin]; [done|]. apply IH in Hin. lia.
Qed.

Lemma first_pos_app_l k l l' : k ∈ l → first_pos k (l ++ l') = first_pos k l.
Proof.
  induction l as [|x l IH]; simpl.
  - intros Hin. by apply elem_of_nil in Hin.
  - intros Hin. destruct (decide (x = k)) as [->|Hne]; [done|].
    apply elem_of_cons in Hin as [->|Hin]; [done|]. by rewrite IH.
Qed.

Lemma first_pos_snoc_new k l : k ∉ l → first_pos k (l ++ [k]) = length l.
Proof.
  induction l as [|x l IH]; simpl.
  - intros _. by rewrite decide_True.
  - rewrite not_elem_of_cons. intros [Hne Hnin].
    rewrite decide_False by done. by rewrite IH.
Qed.

Lemma seen_before_irrefl l k : ¬ seen_before l k k.
Proof. unfold seen_before. lia. Qed.
End FirstPos.

(** ** Strongly sorted lists *)

Section StronglySortedFacts.
Context {A : Type}.
Implicit Types (R : relation A) (l : list A).

Lemma StronglySorted_lookup R l i j x y :
  StronglySorted R l → (i < j)%nat → l !! i = Some x → l !! j = Some y → R x y.
Proof.
  intros Hs. revert i j. induction Hs as [|a l Hs IH Hall]; intros i j Hij Hi Hj.
  - done.
  - destruct j as [|j]; [lia|]. simpl in Hj. destruct i as [|i]; simpl in Hi.
    + injection Hi as ->. rewrite Forall_forall in Hall.
      apply Hall. by eapply list_elem_of_lookup_2.
    + eapply (IH i j); [lia|done..].
Qed.

Lemma StronglySorted_weaken R R' l :
  (∀ x y, x ∈ l → y ∈ l → R x y → R' x y) →
  StronglySorted R l → StronglySorted R' l.
Proof.
  intros Himp Hs. induction Hs as [|a l Hs IH Hall]; constructor.
  - apply IH. intros x y Hx Hy. apply Himp; by right.
  - rewrite Forall_forall in *. intros y Hy.
    apply Himp; [left | by right | by apply Hall].
Qed.

Lemma StronglySorted_irrefl_NoDup R l :
  (∀ x, ¬ R x x) → StronglySorted R l → NoDup l.
Proof.
  intros Hirr Hs. induction Hs as [|a l Hs IH Hall]; constructor; [|done].
  intros Hin. rewrite Forall_forall in Hall. by apply (Hirr a), Hall.
Qed.

Lemma StronglySorted_fmap_inv {B} (f : A → B) (RB : relation B) l :
  StronglySorted RB (f <$> l) → StronglySorted (fun x y => RB (f x) (f y)) l.
Proof.
  induction l as [|a l IH]; csimpl; [constructor|].
  rewrite StronglySorted_cons, Forall_fmap. intros [Hall Hs].
  constructor; [by apply IH | done].
Qed.
End StronglySortedFacts.

(** ** Keys of an accumulated dictionary *)

Section AccumulateOrder.
Context {A K V : Type} `{EqDecision K}.
Context (key : A → K) (upd : A → V → V) (init : V).

Local Abbreviation accumulate := (accumulate key upd init).

(** The keys come in the order in which they were first visited. *)
Lemma accumulate_keys_sorted xs :
  StronglySorted (seen_before (key <$> xs)) (dict_keys (accumulate xs)).
Proof.
  induction xs as [|a xs IH] using rev_ind; [constructor|].
  rewrite accumulate_snoc, fmap_app. simpl. unfold upsert.
  destruct (decide (key a ∈ dict_keys (accumulate xs))) as [Hin|Hnin].
  - rewrite dict_set_keys_present by done.
    eapply StronglySorted_weaken; [|exact IH].
    intros p q Hp Hq. unfold seen_before.
    apply accumulate_keys_elem in Hp, Hq.
    by rewrite !first_pos_app_l.
  - rewrite dict_set_absent by done. unfold dict_keys. rewrite fmap_app.
    apply StronglySorted_app_2.
    + intros p q Hp Hq. apply list_elem_of_singleton in Hq as ->. simpl.
      apply accumulate_keys_elem in Hp. unfold seen_before.
      rewrite first_pos_app_l by done.
      rewrite first_pos_snoc_new
        by (by rewrite <-(accumulate_keys_elem key upd init)).
      by apply first_pos_lt.
    + eapply StronglySorted_weaken; [|exact IH].
      intros p q Hp Hq. unfold seen_before.
      apply accumulate_keys_elem in Hp, Hq.
      by rewrite !first_pos_app_l.
    + repeat constructor.
Qed.

Lemma accumulate_keys_NoDup xs : NoDup (dict_keys (accumulate xs)).
Proof.
  eapply StronglySorted_irrefl_NoDup; [|apply accumulate_keys_sorted].
  intros k. apply seen_before_irrefl.
Qed.

Lemma accumulate_elem xs k v :
  (k, v) ∈ accumulate xs ↔ k ∈ (key <$> xs) ∧ v = value_of key upd init k xs.
Proof.
  split.
  - intros Hin. apply dict_elem_get in Hin; [|apply accumulate_keys_NoDup].
    rewrite accumulate_lookup in Hin. case_bool_decide; [|done].
    by injection Hin as <-.
  - intros [Hin ->]. apply dict_get_Some_elem.
    rewrite accumulate_lookup. by rewrite bool_decide_eq_true_2.
Qed.
End AccumulateOrder.

(** ** [sorted(..., reverse=True)] *)

Section SortedFacts.
Context {A : Type} (key : A → Z).
Implicit Types (l : list A).

Lemma insert_desc_Permutation x l : insert_desc key x l ≡ₚ x :: l.
Proof.
  induction l as [|y l IH]; simpl; [done|].
  destruct (key x <? key y); [|done].
  rewrite IH. apply Permutation_swap.
Qed.

Lemma sorted_reverse_Permutation l : sorted_reverse key l ≡ₚ l.
Proof.
  induction l as [|x l IH]; simpl; [done|].
  by rewrite insert_desc_Permutation, IH.
Qed.

Local Abbreviation ranked := (ranked key).

Lemma insert_desc_ranked (before : relation A) x l :
  Forall (before x) l →
  StronglySorted (ranked before) l →
  StronglySorted (ranked before) (insert_desc key x l).
Proof.
  intros Hx Hs. induction Hs as [|y l Hs IH Hall]; simpl.
  - repeat constructor.
  - apply Forall_cons in Hx as [Hxy Hx].
    destruct (Z.ltb_spec (key x) (key y)) as [Hlt|Hge].
    + constructor; [by apply IH|].
      rewrite insert_desc_Permutation. constructor; [by left | done].
    + constructor; [by constructor|].
      assert (ranked before x y) as Hrxy.
      { destruct (decide (key x = key y)); [right|left]; [done|lia]. }
      constructor; [done|].
      rewrite Forall_forall in *. intros z Hz.
      destruct (Hall z Hz) as [Hlt|[Heq _]].
      * left. lia.
      * destruct (decide (key x = key z)); [right|left]; [|lia].
        split; [done|]. by apply Hx.
Qed.

(** Stability: elements with equal keys keep the order of the input. *)
Lemma sorted_reverse_ranked (before : relation A) l :
  StronglySorted before l →
  StronglySorted (ranked before) (sorted_reverse key l).
Proof.
  induction 1 as [|x l Hs IH Hall]; simpl; [constructor|].
  apply insert_desc_ranked; [|done].
  by rewrite sorted_reverse_Permutation.
Qed.
End SortedFacts.

(** ** What the accumulated entries hold *)

Lemma value_of_count {A K} `{EqDecision K} (key : A → K) (k : K) (xs : list A) :
  value_of key count_one 0 k xs =
  Z.of_nat (length (filter (fun a => key a = k) xs)).
Proof.
  unfold value_of.
  enough (∀ n, fold_left
            (fun v a => if decide (key a = k) then count_one a v else v) xs n
          = n + Z.of_nat (length (filter (fun a => key a = k) xs))) as ->
    by lia.
  induction xs as [|a xs IH]; intros n; simpl; [lia|].
  rewrite IH, filter_cons. unfold count_one.
  destruct (decide (key a = k)); simpl; lia.
Qed.

Lemma value_of_total (p : string) (lines : list (string * Z)) :
  value_of fst add_line 0 p lines = total_quantity p lines.
Proof.
  unfold value_of.
  enough (∀ n, fold_left
            (fun v a => if decide (a.1 = p) then add_line a v else v) lines n
          = n + total_quantity p lines) as -> by lia.
  induction lines as [|[n q] lines IH]; intros v; simpl; [lia|].
  rewrite IH. unfold add_line. simpl. destruct (decide (n = p)); lia.
Qed.

Lemma value_of_trend (seg : option string) (c : Z) (ids : list Z) :
  c ∈ ids →
  value_of id (add_order seg) no_orders c ids =
  {| TrendEntry.count := Z.of_nat (length (filter (fun c' => c' = c) ids));
     TrendEntry.segments := {[seg]} |}.
Proof.
  unfold value_of.
  enough (∀ e, fold_left
            (fun v a => if decide (id a = c) then add_order seg a v else v) ids e
          = {| TrendEntry.count :=
                 TrendEntry.count e
                 + Z.of_nat (length (filter (fun c' => c' = c) ids));
               TrendEntry.segments :=
                 if decide (c ∈ ids)
                 then TrendEntry.segments e ∪ {[seg]}
                 else TrendEntry.segments e |}) as Hgen.
  { intros Hin. rewrite Hgen, decide_True by done. simpl. f_equal.
    apply (left_id_L ∅ (∪)). }
  induction ids as [|a ids IH]; intros e; simpl.
  - destruct e; simpl; f_equal; lia.
  - rewrite IH, filter_cons. unfold id.
    destruct (decide (a = c)) as [->|Hne]; simpl.
    + rewrite (decide_True (P := c ∈ c :: ids)) by left. f_equal; [lia|].
      destruct (decide (c ∈ ids)); [|done].
      by rewrite <-(assoc_L (∪)), (idemp_L (∪) {[seg]}).
    + f_equal. destruct (decide (c ∈ ids)) as [Hin|Hnin].
      * rewrite decide_True; [done | by right].
      * rewrite decide_False; [done|].
        rewrite not_elem_of_cons. by split.
Qed.

(** ** The loop over the orders

    On well-formed orders no step of the loop raises, and the three
    accumulators evolve independently of one another. *)

Lemma tally_item_upsert (d : dict string Z) (item : OrderItem.t) inv :
  OrderItem.item item = Some inv →
  tally_item d item =
  Ok (upsert fst add_line 0 d (InventoryItem.name inv, OrderItem.quantity item)).
Proof.
  intros Hinv. unfold tally_item, upsert, add_line. rewrite Hinv. simpl.
  unfold dict_contains, dict_getitem.
  destruct (dict_get d (InventoryItem.name inv)) as [v|] eqn:Hd; simpl.
  - by rewrite Hd.
  - rewrite dict_get_set_eq. simpl. by rewrite dict_set_set.
Qed.

Lemma for_each_tally_item (items : list OrderItem.t) (d : dict string Z) :
  Forall well_formed_item items →
  for_each tally_item items d =
  Ok (fold_left (upsert fst add_line 0) (items ≫= line_of) d).
Proof.
  intros Hwf. revert d. induction Hwf as [|item items [inv Hinv] _ IH]; intros d.
  - done.
  - simpl. rewrite (tally_item_upsert _ _ inv Hinv). simpl.
    rewrite IH. unfold line_of at 2. rewrite Hinv. done.
Qed.

Lemma tally_order_upsert (seg : option string) (acc : tallies) (order : Order.t) :
  well_formed_order order →
  tally_order seg acc order =
  Ok {| peak_periods := peak_periods acc ++ [period_of order];
        top_products_count :=
          fold_left (upsert fst add_line 0) (line_items [order])
            (top_products_count acc);
        customers_trend :=
          fold_left (upsert id (add_order seg) no_orders) (customer_ids [order])
            (customers_trend acc) |}.
Proof.
  intros [[c Hc] Hwf].
  destruct (Order.items order) as [items|] eqn:Hitems; [simpl in Hwf|done].
  assert (line_items [order] = items ≫= line_of) as ->.
  { unfold line_items. rewrite bind_cons, Hitems. simpl. apply app_nil_r. }
  assert (customer_ids [order] = [Customer.id c]) as ->.
  { unfold customer_ids. rewrite bind_cons, Hc. done. }
  unfold tally_order. rewrite Hitems, Hc. simpl.
  rewrite (for_each_tally_item _ _ Hwf). simpl.
  unfold upsert, add_order, no_orders, dict_contains, dict_getitem, id,
    period_of.
  destruct (dict_get (customers_trend acc) (Customer.id c)) as [e|] eqn:Hd;
    simpl.
  - rewrite Hd. simpl. rewrite dict_get_set_eq. simpl.
    by rewrite dict_set_set.
  - rewrite dict_get_set_eq. simpl. rewrite dict_set_set, dict_get_set_eq.
    simpl. by rewrite dict_set_set.
Qed.

Lemma for_each_tally_order (seg : option string) (orders : list Order.t)
    (acc : tallies) :
  Forall well_formed_order orders →
  for_each (tally_order seg) orders acc =
  Ok {| peak_periods := peak_periods acc ++ (period_of <$> orders);
        top_products_count :=
          fold_left (upsert fst add_line 0) (line_items orders)
            (top_products_count acc);
        customers_trend :=
          fold_left (upsert id (add_order seg) no_orders) (customer_ids orders)
            (customers_trend acc) |}.
Proof.
  intros Hwf. revert acc. induction Hwf as [|order orders Hwf _ IH]; intros acc.
  - simpl. rewrite app_nil_r. by destruct acc.
  - simpl. rewrite (tally_order_upsert _ _ _ Hwf). simpl. rewrite IH. simpl.
    by rewrite !app_nil_r, !fold_left_app, <-app_assoc.
Qed.

(** Conversely the loop completes only on well-formed orders: an order or a
    line item loaded without its relation makes the body raise. *)

Lemma tally_item_Ok (d d' : dict string Z) (item : OrderItem.t) :
  tally_item d item = Ok d' → well_formed_item item.
Proof.
  unfold tally_item, well_formed_item.
  destruct (OrderItem.item item); [eauto | discriminate].
Qed.

Lemma for_each_tally_item_Ok (items : list OrderItem.t) (d d' : dict string Z) :
  for_each tally_item items d = Ok d' → Forall well_formed_item items.
Proof.
  revert d. induction items as [|item items IH]; intros d; simpl.
  - constructor.
  - destruct (tally_item d item) as [d1|] eqn:Hitem; [|discriminate]. simpl.
    intros Hrest. constructor; [by eapply tally_item_Ok | by eapply IH].
Qed.

Lemma tally_order_Ok (seg : option string) (acc acc' : tallies)
    (order : Order.t) :
  tally_order seg acc order = Ok acc' → well_formed_order order.
Proof.
  unfold tally_order, well_formed_order.
  destruct (Order.items order) as [items|]; [|discriminate]. simpl.
  destruct (for_each tally_item items _) as [d|] eqn:Hitems; [|discriminate].
  simpl. destruct (Order.customer order) as [c|]; [|discriminate].
  intros _. split; [eauto | by eapply for_each_tally_item_Ok].
Qed.

Lemma for_each_tally_order_Ok (seg : option string) (orders : list Order.t)
    (acc acc' : tallies) :
  for_each (tally_order seg) orders acc = Ok acc' →
  Forall well_formed_order orders.
Proof.
  revert acc. induction orders as [|order orders IH]; intros acc; simpl.
  - constructor.
  - destruct (tally_order seg acc order) as [acc1|] eqn:Horder; [|discriminate].
    simpl. intros Hrest.
    constructor; [by eapply tally_order_Ok | by eapply IH].
Qed.

Lemma sales_trends_arguments_Ok (seg : option string) (orders : list Order.t)
    (args : SalesTrendsArguments.t) :
  sales_trends_arguments seg orders = Ok args → Forall well_formed_order orders.
Proof.
  unfold sales_trends_arguments.
  destruct (for_each (tally_order seg) orders _) as [acc|] eqn:Hloop;
    [|discriminate].
  intros _. by eapply for_each_tally_order_Ok.
Qed.

(** A response is returned only when the arguments were computed and the
    model class accepted them. *)
Lemma aggregate_sales_trends_inv (v2 : bool) (seg : option string)
    (orders : list Order.t) (r : SalesTrendsResponse.t) :
  aggregate_sales_trends v2 seg orders = Ok r →
  ∃ args, sales_trends_arguments seg orders = Ok args ∧
    SalesTrendsResponse_init v2 args = Ok r.
Proof.
  unfold aggregate_sales_trends.
  destruct (sales_trends_arguments seg orders) as [args|]; [|discriminate].
  simpl. eauto.
Qed.

Lemma aggregate_sales_trends_Ok (v2 : bool) (seg : option string)
    (orders : list Order.t) (r : SalesTrendsResponse.t) :
  aggregate_sales_trends v2 seg orders = Ok r → Forall well_formed_order orders.
Proof.
  intros (args & Hargs & _)%aggregate_sales_trends_inv.
  by eapply sales_trends_arguments_Ok.
Qed.

(** ** The model class *)

Lemma SalesTrendsResponse_init_lists (v2 : bool)
    (args : SalesTrendsArguments.t) (r : SalesTrendsResponse.t) :
  SalesTrendsResponse_init v2 args = Ok r →
  SalesTrendsResponse.peak_periods r = SalesTrendsArguments.peak_periods args ∧
  SalesTrendsResponse.top_products r = SalesTrendsArguments.top_products args.
Proof.
  unfold SalesTrendsResponse_init. destruct v2.
  - destruct (SalesTrendsArguments.customer_trends args) as [|[c e] rest];
      [|discriminate].
    by intros [= <-].
  - by intros [= <-].
Qed.

Lemma SalesTrendsResponse_init_keys (v2 : bool)
    (args : SalesTrendsArguments.t) (r : SalesTrendsResponse.t) :
  SalesTrendsResponse_init v2 args = Ok r →
  SalesTrendsResponse.customer_trends r =
  coerce_keys (SalesTrendsArguments.customer_trends args).
Proof.
  unfold SalesTrendsResponse_init. destruct v2.
  - destruct (SalesTrendsArguments.customer_trends args) as [|[c e] rest];
      [|discriminate].
    by intros [= <-].
  - by intros [= <-].
Qed.

Lemma SalesTrendsResponse_init_v1 (args : SalesTrendsArguments.t) :
  ∃ r, SalesTrendsResponse_init false args = Ok r.
Proof. unfold SalesTrendsResponse_init. eauto. Qed.

Lemma SalesTrendsResponse_init_v2 (args : SalesTrendsArguments.t) :
  SalesTrendsArguments.customer_trends args ≠ [] →
  ∃ msg, SalesTrendsResponse_init true args = Raise (Exn ValidationError msg).
Proof.
  unfold SalesTrendsResponse_init.
  destruct (SalesTrendsArguments.customer_trends args) as [|[c e] rest];
    [done|eauto].
Qed.

(** ** Selecting the peak periods *)

Lemma py_max_Ok (xs : list Z) : xs ≠ [] → ∃ m, py_max xs = Ok m.
Proof. destruct xs; [done|]. intros _. simpl. eauto. Qed.

Lemma fold_left_max_bounds (xs : list Z) (x : Z) :
  (fold_left Z.max xs x = x ∨ fold_left Z.max xs x ∈ xs) ∧
  x ≤ fold_left Z.max xs x ∧
  ∀ v, v ∈ xs → v ≤ fold_left Z.max xs x.
Proof.
  revert x. induction xs as [|y xs IH]; intros x; simpl.
  - split; [by left|]. split; [lia|]. intros v Hv. by apply elem_of_nil in Hv.
  - destruct (IH (Z.max x y)) as (Hm & Hle & Hub). split; [|split].
    + destruct Hm as [Hm|Hm]; [|right; by right].
      rewrite Hm. destruct (Z.max_spec x y) as [[_ ->]|[_ ->]];
        [right; left | by left].
    + lia.
    + intros v Hv. apply elem_of_cons in Hv as [->|Hv]; [lia | by apply Hub].
Qed.

Lemma py_max_spec (xs : list Z) (m : Z) :
  py_max xs = Ok m → m ∈ xs ∧ ∀ v, v ∈ xs → v ≤ m.
Proof.
  destruct xs as [|x xs]; [done|]. simpl. intros [= <-].
  destruct (fold_left_max_bounds xs x) as (Hm & Hle & Hub). split.
  - destruct Hm as [->|Hm]; [left | by right].
  - intros v Hv. apply elem_of_cons in Hv as [->|Hv]; [done | by apply Hub].
Qed.

Lemma top_peak_filter_max (items all : dict string Z) (m : Z) :
  py_max (dict_values all) = Ok m →
  top_peak_filter items all = Ok (filter (fun e => e.2 = m) items).*1.
Proof.
  intros Hm. induction items as [|[p c] items IH]; simpl; [done|].
  rewrite Hm, IH. simpl.
  destruct (decide (c = m));
    [rewrite filter_cons_True by done | rewrite filter_cons_False by done];
    done.
Qed.

Lemma top_peak_filter_spec (d : dict string Z) :
  NoDup (dict_keys d) →
  ∃ sel, top_peak_filter (dict_items d) d = Ok sel ∧
    NoDup sel ∧
    (d ≠ [] → sel ≠ []) ∧
    ∀ p, p ∈ sel ↔
      ∃ c, dict_get d p = Some c ∧ ∀ q c', dict_get d q = Some c' → c' ≤ c.
Proof.
  intros Hnd. destruct (decide (d = [])) as [->|Hne].
  - exists []. split; [done|]. split; [constructor|]. split; [done|].
    intros p. split; [intros Hp; by apply elem_of_nil in Hp|].
    by intros (c & [=] & _).
  - destruct (py_max_Ok (dict_values d)) as [m Hm].
    { unfold dict_values. by destruct d. }
    pose proof (py_max_spec _ _ Hm) as [Hin Hub].
    exists (filter (fun e => e.2 = m) d).*1.
    split; [by apply top_peak_filter_max|].
    assert (∀ p, p ∈ (filter (fun e => e.2 = m) d).*1 ↔ dict_get d p = Some m)
      as Hsel.
    { intros p. rewrite list_elem_of_fmap. split.
      - intros ([p' c] & -> & Hf). apply list_elem_of_filter in Hf as [Hc Hf].
        simpl in *. subst c. by apply dict_elem_get.
      - intros Hp. exists (p, m). split; [done|].
        apply list_elem_of_filter. split; [done|]. by apply dict_get_Some_elem. }
    split; [|split].
    + apply (sublist_NoDup _ (dict_keys d)); [exact Hnd|]. unfold dict_keys.
      apply fmap_sublist, sublist_filter.
    + intros _. unfold dict_values in Hin.
      apply list_elem_of_fmap in Hin as ([p c] & -> & Hpc). simpl.
      intros Hnil. assert (p ∈ (filter (fun e => e.2 = c) d).*1) as Hp.
      { apply Hsel. by apply dict_elem_get. }
      rewrite Hnil in Hp. by apply elem_of_nil in Hp.
    + intros p. rewrite Hsel. split.
      * intros Hp. exists m. split; [done|]. intros q c' Hq. apply Hub.
        unfold dict_values. apply dict_get_Some_elem in Hq.
        by apply (list_elem_of_fmap_2 snd _ (q, c')).
      * intros (c & Hp & Hc). rewrite Hp. f_equal.
        unfold dict_values in Hin.
        apply list_elem_of_fmap in Hin as ([q c'] & -> & Hq). simpl.
        apply dict_elem_get in Hq; [|done].
        apply Z.le_antisymm; [|by eapply Hc].
        apply Hub. unfold dict_values. apply dict_get_Some_elem in Hp.
        by apply (list_elem_of_fmap_2 snd _ (p, c)).
Qed.

Lemma Counter_accumulate {A K} `{EqDecision K} (f : A → K) (xs : list A) :
  Counter (f <$> xs) = accumulate f count_one 0 xs.
Proof.
  unfold Counter, accumulate. generalize (@nil (K * Z)).
  induction xs as [|x xs IH]; intros d; simpl; [done|]. by rewrite IH.
Qed.

(** ** The aggregation on well-formed orders *)

Lemma sales_trends_arguments_well_formed (seg : option string)
    (orders : list Order.t) (peaks : list string) :
  Forall well_formed_order orders →
  top_peak_filter (accumulate period_of count_one 0 orders)
    (accumulate period_of count_one 0 orders) = Ok peaks →
  sales_trends_arguments seg orders =
  Ok {| SalesTrendsArguments.peak_periods := peaks;
        SalesTrendsArguments.top_products :=
          (take 5 (sorted_reverse snd
                     (accumulate fst add_line 0 (line_items orders)))).*1;
        SalesTrendsArguments.customer_trends :=
          format_customer_trend
            <$> accumulate id (add_order seg) no_orders (customer_ids orders) |}.
Proof.
  intros Hwf Hpeaks.
  unfold sales_trends_arguments. rewrite (for_each_tally_order _ _ _ Hwf).
  simpl. rewrite Counter_accumulate. unfold dict_items in *.
  by rewrite Hpeaks.
Qed.

Lemma sales_trends_arguments_total (seg : option string)
    (orders : list Order.t) :
  Forall well_formed_order orders →
  ∃ args, sales_trends_arguments seg orders = Ok args.
Proof.
  intros Hwf.
  destruct (top_peak_filter_spec (accumulate period_of count_one 0 orders))
    as (peaks & Hpeaks & _); [apply accumulate_keys_NoDup|].
  eexists. by apply sales_trends_arguments_well_formed.
Qed.

(** ** Labels of the periods *)

Lemma str_Z_inj (z z' : Z) : str_Z z = str_Z z' → z = z'.
Proof.
  unfold str_Z. intros H.
  assert (∀ z, Z.to_int z ≠ Decimal.Pos Decimal.Nil ∧
               Z.to_int z ≠ Decimal.Neg Decimal.Nil) as Hnonnil.
  { intros [|p|p]; simpl; split; try discriminate;
      intros [= E]; revert E; apply DecimalPos.Unsigned.to_uint_nonnil. }
  apply DecimalZ.to_int_inj.
  apply (f_equal NilZero.int_of_string) in H.
  rewrite !NilZero.isi in H by apply Hnonnil. congruence.
Qed.

(** On four-digit years [%Y] is the year in decimal. *)
Lemma pad4_decimal_range :
  forallb (fun y => String.eqb (pad4 y) (str_Z (Z.of_nat y)))
    (seq (10 * 100) (90 * 100)) = true.
Proof. vm_compute. reflexivity. Qed.

Lemma pad4_decimal (y : nat) :
  1000 ≤ Z.of_nat y ≤ 9999 → pad4 y = str_Z (Z.of_nat y).
Proof.
  intros Hy. pose proof pad4_decimal_range as H.
  rewrite forallb_forall in H. apply String.eqb_eq, H.
  apply list_elem_of_In, elem_of_seq. lia.
Qed.

Lemma month_cases (m : nat) : 1 ≤ Z.of_nat m ≤ 12 → m ∈ seq 1 12.
Proof. intros Hm. apply elem_of_seq. lia. Qed.

Lemma pad2_decimal (m : nat) :
  1 ≤ Z.of_nat m ≤ 12 →
  pad2 m = (if Z.of_nat m <? 10 then "0" else "") +:+ str_Z (Z.of_nat m).
Proof.
  intros Hm%month_cases. simpl in Hm.
  repeat (apply elem_of_cons in Hm as [->|Hm]; [reflexivity|]).
  by apply elem_of_nil in Hm.
Qed.

Lemma pad2_inj (m m' : nat) :
  1 ≤ Z.of_nat m ≤ 12 → 1 ≤ Z.of_nat m' ≤ 12 → pad2 m = pad2 m' → m = m'.
Proof.
  intros Hm%month_cases Hm'%month_cases. simpl in Hm, Hm'.
  repeat (apply elem_of_cons in Hm as [->|Hm];
    [repeat (apply elem_of_cons in Hm' as [->|Hm'];
       [first [reflexivity | discriminate]|]);
     by apply elem_of_nil in Hm'|]).
  by apply elem_of_nil in Hm.
Qed.

(** The label the code computes is the year-month label. *)
Lemma strftime_Ym_label (d : datetime) :
  four_digit_year d → strftime_Ym d = year_month_label d.
Proof.
  intros [Hy Hm]. unfold strftime_Ym, year_month_label.
  by rewrite pad4_decimal, pad2_decimal.
Qed.

Lemma strftime_Ym_inj (d d' : datetime) :
  four_digit_year d → four_digit_year d' →
  strftime_Ym d = strftime_Ym d' → year d = year d' ∧ month d = month d'.
Proof.
  intros [Hy Hm] [Hy' Hm'] H. unfold strftime_Ym in H.
  assert (pad4 (year d) = pad4 (year d') ∧ pad2 (month d) = pad2 (month d'))
    as [H4 H2].
  { unfold pad4, pad2 in *. cbn [String.append] in H.
    injection H as E1 E2 E3 E4 E5 E6. split.
    - exact (f_equal2 String E1 (f_equal2 String E2
               (f_equal2 String E3 (f_equal2 String E4 eq_refl)))).
    - exact (f_equal2 String E5 (f_equal2 String E6 eq_refl)). }
  split.
  - rewrite !pad4_decimal in H4 by done. by apply str_Z_inj, Nat2Z.inj in H4.
  - by apply pad2_inj.
Qed.

(** Counting by label is counting by month. *)
Lemma same_month_period (order : Order.t) (orders : list Order.t) :
  four_digit_year (Order.placedAt order) →
  Forall (fun order' => four_digit_year (Order.placedAt order')) orders →
  orders_in_month_of order orders = orders_in_period (period_of order) orders.
Proof.
  intros Ho Hall. unfold orders_in_month_of, orders_in_period. do 2 f_equal.
  induction Hall as [|order' orders Ho' _ IH]; [done|].
  rewrite !filter_cons.
  destruct (decide (same_month order order')) as [Hsame|Hdiff],
    (decide (period_of order' = period_of order)) as [Heq|Hne];
    rewrite IH; try done; exfalso.
  - apply Hne. unfold period_of, strftime_Ym. destruct Hsame as [-> ->]. done.
  - apply Hdiff. unfold period_of in Heq.
    by apply strftime_Ym_inj in Heq.
Qed.

Lemma orders_in_period_absent (orders : list Order.t) (q : string) :
  q ∉ (period_of <$> orders) → orders_in_period q orders = 0.
Proof.
  intros Hq. unfold orders_in_period.
  induction orders as [|order orders IH]; [done|].
  rewrite fmap_cons, not_elem_of_cons in Hq. destruct Hq as [Hne Hq].
  rewrite filter_cons_False by done. by apply IH.
Qed.

(** ** Keys of the returned customer trends *)

Lemma coerce_keys_fmap {V} (d : dict Z V) :
  NoDup (dict_keys d) → coerce_keys d = prod_map str_Z id <$> d.
Proof.
  unfold coerce_keys.
  enough (∀ acc, NoDup (dict_keys (acc ++ d)) →
            fold_left (fun acc entry => dict_set acc (str_Z entry.1) entry.2) d
              (prod_map str_Z id <$> acc)
            = prod_map str_Z id <$> (acc ++ d)) as Hgen
    by exact (Hgen []).
  induction d as [|[k v] d IH]; intros acc Hnd; simpl.
  - by rewrite app_nil_r.
  - rewrite dict_set_absent.
    + replace (acc ++ (k, v) :: d) with ((acc ++ [(k, v)]) ++ d) in *
        by by rewrite <-app_assoc.
      rewrite <-(IH _ Hnd). by rewrite fmap_app.
    + unfold dict_keys in *. rewrite <-list_fmap_compose.
      intros ([k' v'] & Hk & Hin)%list_elem_of_fmap. simpl in Hk.
      apply str_Z_inj in Hk as <-.
      rewrite fmap_app, fmap_cons in Hnd.
      apply NoDup_app in Hnd as (_ & Hdisj & _).
      apply (Hdisj k); [|left].
      by apply (list_elem_of_fmap_2 fst _ (k, v')).
Qed.

Lemma dict_get_coerced {V} (d : dict Z V) (c : Z) :
  dict_get (prod_map str_Z id <$> d) (str_Z c) = dict_get d c.
Proof.
  induction d as [|[k v] d IH]; csimpl; [done|].
  destruct (decide (k = c)) as [->|Hne].
  - by rewrite decide_True.
  - rewrite decide_False; [done|]. by intros ?%str_Z_inj.
Qed.

Lemma dict_keys_coerced {V} (d : dict Z V) :
  dict_keys (prod_map str_Z id <$> d) = str_Z <$> dict_keys d.
Proof.
  unfold dict_keys. rewrite <-!list_fmap_compose. by apply list_fmap_ext.
Qed.

Lemma format_customer_trend_keys (d : dict Z TrendEntry.t) :
  dict_keys (format_customer_trend <$> d) = dict_keys d.
Proof.
  unfold dict_keys. rewrite <-list_fmap_compose. by apply list_fmap_ext.
Qed.

(** What a returned response holds, in terms of the arguments computed
    for the model class. *)
Lemma returned_fields (v2 : bool) (seg : option string) (orders : list Order.t)
    (args : SalesTrendsArguments.t) (r : SalesTrendsResponse.t) :
  sales_trends_arguments seg orders = Ok args →
  aggregate_sales_trends v2 seg orders = Ok r →
  SalesTrendsResponse.peak_periods r = SalesTrendsArguments.peak_periods args ∧
  SalesTrendsResponse.top_products r = SalesTrendsArguments.top_products args ∧
  SalesTrendsResponse.customer_trends r =
  coerce_keys (SalesTrendsArguments.customer_trends args).
Proof.
  intros Hargs (args' & Hargs' & Hinit)%aggregate_sales_trends_inv.
  rewrite Hargs in Hargs'. injection Hargs' as <-.
  destruct (SalesTrendsResponse_init_lists _ _ _ Hinit) as [-> ->].
  by rewrite (SalesTrendsResponse_init_keys _ _ _ Hinit).
Qed.

(** ** Claims about the aggregation *)

Lemma counted_period (orders : list Order.t) (p : string) :
  value_of period_of count_one 0 p orders = orders_in_period p orders.
Proof. apply value_of_count. Qed.

Lemma orders_in_period_nonneg (orders : list Order.t) (p : string) :
  0 ≤ orders_in_period p orders.
Proof. unfold orders_in_period. lia. Qed.

(** The two characterisations below hold of the values computed on
    well-formed orders; they are what the claims, reordering and
    relabelling are measured against. *)
Lemma peaks_characterised (orders : list Order.t) (peaks : list string) :
  top_peak_filter (accumulate period_of count_one 0 orders)
    (accumulate period_of count_one 0 orders) = Ok peaks →
  ∀ p, p ∈ peaks ↔
    p ∈ (period_of <$> orders) ∧
    ∀ q, orders_in_period q orders ≤ orders_in_period p orders.
Proof.
  intros Hpeaks.
  destruct (top_peak_filter_spec (accumulate period_of count_one 0 orders))
    as (sel & Hsel & _ & _ & Hchar); [apply accumulate_keys_NoDup|].
  unfold dict_items in Hsel. rewrite Hpeaks in Hsel. injection Hsel as <-.
  intros p. rewrite Hchar. split.
  - intros (c & Hp & Hmax). rewrite accumulate_lookup in Hp.
    case_bool_decide as Hin; [|done]. injection Hp as <-.
    split; [done|]. intros q. rewrite <-!counted_period.
    destruct (accumulate_get period_of count_one 0 orders q)
      as [[_ Hq]|(_ & _ & ->)].
    + by eapply Hmax.
    + rewrite counted_period. apply orders_in_period_nonneg.
  - intros [Hin Hmax]. exists (orders_in_period p orders). split.
    + rewrite accumulate_lookup, bool_decide_eq_true_2 by done.
      by rewrite counted_period.
    + intros q c' Hq. rewrite accumulate_lookup in Hq.
      case_bool_decide; [|done]. injection Hq as <-.
      rewrite counted_period. apply Hmax.
Qed.

Lemma dict_get_format (d : dict Z TrendEntry.t) (c : Z) :
  dict_get (format_customer_trend <$> d) c =
  (fun e => (format_customer_trend (c, e)).2) <$> dict_get d c.
Proof.
  induction d as [|[c' e] d IH]; csimpl; [done|].
  destruct (decide (c' = c)) as [->|]; [done|]. apply IH.
Qed.

Lemma trends_characterised (seg : option string) (orders : list Order.t) (c : Z) :
  dict_get
    (format_customer_trend
       <$> accumulate id (add_order seg) no_orders (customer_ids orders)) c =
  if bool_decide (c ∈ customer_ids orders) then
    Some {| SalesTrendsResponse.order_count := orders_of_customer c orders;
            SalesTrendsResponse.segments := [seg] |}
  else None.
Proof.
  rewrite dict_get_format, accumulate_lookup, list_fmap_id.
  case_bool_decide as Hin; [|done]. simpl.
  rewrite value_of_trend by done. simpl.
  by rewrite elements_singleton.
Qed.

Lemma trends_keys_NoDup (seg : option string) (orders : list Order.t) :
  NoDup (dict_keys
           (format_customer_trend
              <$> accumulate id (add_order seg) no_orders
                    (customer_ids orders))).
Proof. rewrite format_customer_trend_keys. apply accumulate_keys_NoDup. Qed.



(** C3.  On the empty collection of orders the aggregation returns, with an
    empty [peak_periods] list and an empty [top_products] list (and no
    customer trends). *)
Theorem no_orders_no_trends (pydantic_v2 : bool)
    (customer_segment : option string) :
  aggregate_sales_trends pydantic_v2 customer_segment [] =
  Ok {| SalesTrendsResponse.peak_periods := [];
        SalesTrendsResponse.top_products := [];
        SalesTrendsResponse.customer_trends := [] |}.
Proof. by destruct pydantic_v2. Qed.

Lemma customer_trends_nonempty (seg : option string) (orders : list Order.t)
    (args : SalesTrendsArguments.t) :
  Forall well_formed_order orders →
  orders ≠ [] →
  sales_trends_arguments seg orders = Ok args →
  SalesTrendsArguments.customer_trends args ≠ [].
Proof.
  intros Hwf Hne Hargs.
  destruct (top_peak_filter_spec (accumulate period_of count_one 0 orders))
    as (peaks & Hpeaks & _); [apply accumulate_keys_NoDup|].
  rewrite (sales_trends_arguments_well_formed seg _ _ Hwf Hpeaks) in Hargs.
  injection Hargs as <-. simpl. intros Hnil%fmap_nil_inv.
  destruct Hwf as [|order orders [[c Hc] _] _]; [done|].
  pose proof (accumulate_keys_elem id (add_order seg) no_orders
                (customer_ids (order :: orders)) (Customer.id c)) as [_ Hin].
  rewrite Hnil in Hin. eapply elem_of_nil, Hin.
  unfold customer_ids. rewrite bind_cons, Hc. left.
Qed.

(** C5.  Not as claimed.  On well-formed orders lines 67-96 raise nothing
    and compute the three arguments of the response, but the model class
    called on line 97 is handed [customer_trends] keyed by the integer
    customer ids where it declares [Dict[str, Dict]]: for every non-empty
    collection of well-formed orders the call raises [ValidationError]
    under pydantic 2, and returns a response only under pydantic 1. *)
Theorem aggregation_raises_in_the_model_class
    (customer_segment : option string) (orders : list Order.t) :
  Forall well_formed_order orders →
  orders ≠ [] →
  (∃ args, sales_trends_arguments customer_segment orders = Ok args) ∧
  (∃ msg, aggregate_sales_trends true customer_segment orders =
          Raise (Exn ValidationError msg)) ∧
  (∃ r, aggregate_sales_trends false customer_segment orders = Ok r).
Proof.
  intros Hwf Hne.
  destruct (sales_trends_arguments_total customer_segment _ Hwf)
    as [args Hargs].
  pose proof (customer_trends_nonempty _ _ _ Hwf Hne Hargs) as Htrends.
  split; [eauto|]. unfold aggregate_sales_trends. rewrite Hargs. simpl.
  split.
  - by apply SalesTrendsResponse_init_v2.
  - apply SalesTrendsResponse_init_v1.
Qed.

Lemma aggregation_raises_in_the_model_class_sample :
  (∃ args, sales_trends_arguments (Some "retail") sample_orders = Ok args) ∧
  (∃ msg, aggregate_sales_trends true (Some "retail") sample_orders =
          Raise (Exn ValidationError msg)) ∧
  (∃ r, aggregate_sales_trends false (Some "retail") sample_orders = Ok r).
Proof.
  apply (aggregation_raises_in_the_model_class (Some "retail") sample_orders).
  - apply (bool_decide_unpack _). vm_compute. exact I.
  - discriminate.
Defined.

(** The aggregation evaluated on the sample orders under both versions of
    the model class, and on two periods that tie. *)
Example arguments_sample :
  sales_trends_arguments (Some "retail") sample_orders =
  Ok {| SalesTrendsArguments.peak_periods := ["2024-01"];
        SalesTrendsArguments.top_products := ["ProductA"; "ProductB"];
        SalesTrendsArguments.customer_trends :=
          [(7, {| SalesTrendsResponse.order_count := 2;
                  SalesTrendsResponse.segments := [Some "retail"] |});
           (8, {| SalesTrendsResponse.order_count := 1;
                  SalesTrendsResponse.segments := [Some "retail"] |})] |}.
Proof. vm_compute. reflexivity. Qed.

Example aggregate_sample_v1 :
  aggregate_sales_trends false (Some "retail") sample_orders =
  Ok {| SalesTrendsResponse.peak_periods := ["2024-01"];
        SalesTrendsResponse.top_products := ["ProductA"; "ProductB"];
        SalesTrendsResponse.customer_trends :=
          [("7", {| SalesTrendsResponse.order_count := 2;
                    SalesTrendsResponse.segments := [Some "retail"] |});
           ("8", {| SalesTrendsResponse.order_count := 1;
                    SalesTrendsResponse.segments := [Some "retail"] |})] |}.
Proof. vm_compute. reflexivity. Qed.

Example aggregate_sample_v2 :
  exn_type <$> match aggregate_sales_trends true (Some "retail") sample_orders
               with Ok _ => None | Raise e => Some e end
  = Some ValidationError.
Proof. vm_compute. reflexivity. Qed.

Example arguments_tie :
  SalesTrendsArguments.peak_periods
    <$> sales_trends_arguments None sample_tie_orders
  = Ok ["2024-03"; "2023-12"].
Proof. vm_compute. reflexivity. Qed.

Example arguments_top_five :
  SalesTrendsArguments.top_products
    <$> sales_trends_arguments None
          [sample_order 2024 1 1
             [sample_line "a" 1; sample_line "b" 1; sample_line "c" 2;
              sample_line "d" 1; sample_line "e" 0; sample_line "f" 1;
              sample_line "g" 1; sample_line "e" 1]]
  = Ok ["c"; "a"; "b"; "d"; "e"].
Proof. vm_compute. reflexivity. Qed.

(** An order loaded without its relations makes the loop raise. *)
Example aggregate_ill_formed :
  sales_trends_arguments None
    [{| Order.id := 1; Order.placedAt := {| year := 2024; month := 1; day := 1 |};
        Order.customerId := 7; Order.customer := None; Order.items := None |}]
  = Raise (Exn TypeError "'NoneType' object is not iterable").
Proof. reflexivity. Qed.

(** The product names in the order the totals dictionary is sorted into:
    descending total, first encountered first among equal totals. *)
Lemma sorted_products_ranked (lines : list (string * Z)) :
  StronglySorted (ranks_before lines)
    (sorted_reverse snd (accumulate fst add_line 0 lines)).*1.
Proof.
  set (D := accumulate fst add_line 0 lines).
  pose proof (accumulate_keys_sorted fst add_line 0 lines) as Hkeys.
  apply StronglySorted_fmap_inv in Hkeys.
  apply (sorted_reverse_ranked snd) in Hkeys.
  eapply StronglySorted_fmap; [|eapply StronglySorted_weaken; [|exact Hkeys]].
  - intros a b H. exact H.
  - intros [p v] [q w] Hp Hq. simpl.
    rewrite sorted_reverse_Permutation in Hp, Hq.
    apply accumulate_elem in Hp as [_ ->], Hq as [_ ->].
    rewrite !value_of_total. unfold ranked, ranks_before, seen_before. simpl.
    done.
Qed.

Lemma sorted_products_elem (lines : list (string * Z)) (p : string) :
  p ∈ (sorted_reverse snd (accumulate fst add_line 0 lines)).*1 ↔ p ∈ lines.*1.
Proof.
  rewrite sorted_reverse_Permutation.
  apply (accumulate_keys_elem fst add_line 0).
Qed.

Lemma ranks_before_irrefl (lines : list (string * Z)) (p : string) :
  ¬ ranks_before lines p p.
Proof. unfold ranks_before. lia. Qed.





(** ** Which exceptions the aggregation can raise *)

Lemma raises_only_bind {A B} (P : exn_class → Prop) (m : Result A)
    (f : A → Result B) :
  raises_only P m → (∀ a, raises_only P (f a)) → raises_only P (m ≫= f).
Proof. destruct m; simpl; auto. Qed.

Lemma raises_only_for_each {A S} (P : exn_class → Prop)
    (step : S → A → Result S) (xs : list A) (acc : S) :
  (∀ s a, raises_only P (step s a)) → raises_only P (for_each step xs acc).
Proof.
  intros Hstep. revert acc. induction xs as [|x xs IH]; intros acc; simpl.
  - done.
  - apply raises_only_bind; auto.
Qed.

Lemma raises_only_getattr {A B} attr (f : A → B) o :
  raises_only data_error (getattr attr f o).
Proof. destruct o; simpl; [done|]. by left. Qed.

Lemma raises_only_iter {A} (o : option (list A)) :
  raises_only data_error (iter o).
Proof. destruct o; simpl; [done|]. right. by left. Qed.

Lemma raises_only_getitem {K V} `{EqDecision K} `{Repr K} (d : dict K V) k :
  raises_only data_error (dict_getitem d k).
Proof.
  unfold dict_getitem. destruct (dict_get d k); simpl; [done|].
  right. right. by left.
Qed.

Lemma raises_only_py_max xs : raises_only data_error (py_max xs).
Proof. destruct xs; simpl; [|done]. right. right. right. by left. Qed.

Lemma raises_only_tally_item d item : raises_only data_error (tally_item d item).
Proof.
  unfold tally_item.
  apply raises_only_bind; [apply raises_only_getattr|]. intros name.
  apply raises_only_bind; [apply raises_only_getitem|]. done.
Qed.

Lemma raises_only_tally_order seg acc order :
  raises_only data_error (tally_order seg acc order).
Proof.
  unfold tally_order.
  apply raises_only_bind; [apply raises_only_iter|]. intros items.
  apply raises_only_bind.
  { apply raises_only_for_each. apply raises_only_tally_item. }
  intros d.
  apply raises_only_bind; [apply raises_only_getattr|]. intros c.
  apply raises_only_bind; [apply raises_only_getitem|]. intros e.
  apply raises_only_bind; [apply raises_only_getitem|]. done.
Qed.

Lemma raises_only_top_peak_filter items all :
  raises_only data_error (top_peak_filter items all).
Proof.
  induction items as [|[p c] items IH]; simpl; [done|].
  apply raises_only_bind; [apply raises_only_py_max|]. intros m.
  apply raises_only_bind; [apply IH|]. done.
Qed.

Lemma raises_only_arguments seg orders :
  raises_only data_error (sales_trends_arguments seg orders).
Proof.
  unfold sales_trends_arguments.
  apply raises_only_bind.
  { apply raises_only_for_each. apply raises_only_tally_order. }
  intros acc.
  apply raises_only_bind; [apply raises_only_top_peak_filter|]. done.
Qed.

Lemma raises_only_init v2 args :
  raises_only data_error (SalesTrendsResponse_init v2 args).
Proof.
  unfold SalesTrendsResponse_init. destruct v2; [|done].
  destruct (SalesTrendsArguments.customer_trends args) as [|[c e] rest];
    [done|].
  simpl. do 4 right. done.
Qed.

Lemma raises_only_aggregate v2 seg orders :
  raises_only data_error (aggregate_sales_trends v2 seg orders).
Proof.
  unfold aggregate_sales_trends.
  apply raises_only_bind; [apply raises_only_arguments|]. intros args.
  apply raises_only_init.
Qed.

(** ** Running store requests *)

Lemma store_call_served {A} (c : Call) (serve : Store → A * Store) (w : World) :
  outage w ≠ Some O →
  store_call c serve w = (Ok (serve (store w)).1, served w c (serve (store w)).2).
Proof.
  intros Hout. unfold store_call.
  destruct (outage w) as [[|n]|]; [done|..]; by destruct (serve (store w)).
Qed.

Lemma store_call_refused {A} (c : Call) (serve : Store → A * Store) (w : World) :
  outage w = Some O →
  store_call c serve w =
  (Raise (Exn PrismaError "store request failed"), refused w c).
Proof. intros Hout. unfold store_call. by rewrite Hout. Qed.

Lemma bind_run {A B} (m : M A) (f : A → M B) (w : World) :
  (m ≫= f) w =
  match m w with
  | (Ok a, w') => f a w'
  | (Raise e, w') => (Raise e, w')
  end.
Proof. done. Qed.

Lemma bind_lift_Ok {A B} (a : A) (f : A → M B) (w : World) :
  (lift (Ok a) ≫= f) w = f a w.
Proof. done. Qed.

Lemma bind_lift_Raise {A B} (e : exn) (f : A → M B) (w : World) :
  (lift (Raise e) ≫= f) w = (Raise e, w).
Proof. done. Qed.

(** ** The permission gate *)

Section Gate.
Context (prisma : PrismaClient).

Lemma Role_attr_declared name :
  name ∈ Role_members prisma → Role_attr prisma name = Ok name.
Proof. intros Hin. unfold Role_attr. by rewrite bool_decide_eq_true_2. Qed.

Lemma Role_attr_undeclared name :
  name ∉ Role_members prisma →
  Role_attr prisma name = Raise (Exn AttributeError name).
Proof. intros Hin. unfold Role_attr. by rewrite bool_decide_eq_false_2. Qed.

Lemma role_not_in_declared role a b :
  a ∈ Role_members prisma → b ∈ Role_members prisma →
  role_not_in prisma role [a; b] = Ok (negb (bool_decide (role ∈ [a; b]))).
Proof.
  intros Ha Hb. unfold role_not_in. simpl.
  by rewrite (Role_attr_declared a), (Role_attr_declared b).
Qed.

(** After the gate, only the store or the data handling can fail. *)
Lemma find_and_aggregate_no_permission_error (filters : OrderWhere)
    (customer_segment : option string) (w : World) (msg : string) :
  ((orders ← Order_find_many prisma filters;
    lift (aggregate_sales_trends (pydantic_v2 prisma) customer_segment
            orders)) w).1 ≠
  Raise (Exn PermissionError msg).
Proof.
  rewrite bind_run. unfold Order_find_many.
  destruct (decide (outage w = Some O)) as [Hout|Hout].
  - by rewrite store_call_refused.
  - rewrite store_call_served by done. simpl. unfold lift. simpl.
    pose proof (raises_only_aggregate (pydantic_v2 prisma) customer_segment
                  (Order_where prisma filters (store w))) as Hagg.
    destruct (aggregate_sales_trends _ _ _) as [r|e]; [done|].
    intros [= ->]. simpl in Hagg. destruct Hagg as [?|[?|[?|[?|?]]]]; done.
Qed.

(** C6.  Not as claimed.  The allowed list on lines 54-55 names
    [prisma.enums.Role.AnalyticsManager], which the note on line 56 reports
    as no member of the enumeration.  On such an enumeration the gate raises
    [PermissionError] for an absent user only: for every present user,
    whatever the role and [SalesManager] included, building the list
    raises [AttributeError], and no request reaches the store. *)
Theorem analyzeSalesTrends_gate_raises_AttributeError
    (start_date end_date : string) (product customer_segment : option string)
    (current_user : option User.t) (w : World) :
  "AnalyticsManager" ∉ Role_members prisma →
  match current_user with
  | None =>
      analyzeSalesTrends prisma start_date end_date product customer_segment
        None w
      = (Raise (Exn PermissionError
                  "Access denied: user is not authorized or not active."), w)
  | Some user =>
      ∃ msg,
        analyzeSalesTrends prisma start_date end_date product customer_segment
          (Some user) w = (Raise (Exn AttributeError msg), w)
  end.
Proof.
  intros Ha. destruct current_user as [user|]; [|done].
  unfold analyzeSalesTrends, role_not_in. simpl.
  rewrite (Role_attr_undeclared _ Ha).
  unfold Role_attr. case_bool_decide; simpl; eauto.
Qed.
End Gate.

Lemma analyzeSalesTrends_gate_raises_AttributeError_sample :
  ∃ msg,
    analyzeSalesTrends sample_prisma "2024-01-01" "2024-12-31" None None
      (Some (sample_user "SalesManager")) (sample_world None)
    = (Raise (Exn AttributeError msg), sample_world None).
Proof.
  apply (analyzeSalesTrends_gate_raises_AttributeError sample_prisma
           "2024-01-01" "2024-12-31" None None
           (Some (sample_user "SalesManager")) (sample_world None)).
  apply (bool_decide_unpack _). vm_compute. exact I.
Defined.

(** ** Write sequences *)

Section Writes.
Context (prisma : PrismaClient).

(** C7.  Not as claimed.  The new quantity on line 59 is computed from
    [prisma.models.InventoryItem.quantity], an attribute of the model class
    and not of the row that was read; the class has no such attribute, so
    the expression raises while the arguments of [update] are built.  On
    such a client no execution of [addSalesRecord] gets as far as the
    decrement: whatever the arguments and whatever the store does, the
    lookup is the only request issued, the store is left as it was and no
    response is returned; with enough stock the call ends in the error of
    the class attribute. *)
Theorem addSalesRecord_decrement_never_issued (product_id quantity : Z)
    (current_user : option User.t) (e : exn) (w : World) :
  InventoryItem_quantity prisma = Raise e →
  ∃ r w',
    addSalesRecord prisma product_id quantity current_user w = (r, w') ∧
    store w' = store w ∧
    calls w' = calls w ++ [FindUnique "InventoryItem" product_id] ∧
    (∀ response, r ≠ Ok response) ∧
    (∀ item, inventoryItems (store w) !! product_id = Some item →
       quantity ≤ InventoryItem.quantity item →
       outage w ≠ Some O →
       r = Raise e).
Proof.
  intros Hclass. unfold addSalesRecord. rewrite bind_run.
  unfold InventoryItem_find_unique.
  destruct (decide (outage w = Some O)) as [Hout|Hout].
  - rewrite store_call_refused by done.
    eexists _, _. split; [done|]. simpl. by repeat split.
  - rewrite store_call_served by done. simpl.
    destruct (inventoryItems (store w) !! product_id) as [item|] eqn:Hitem.
    + destruct (Z.ltb_spec (InventoryItem.quantity item) quantity).
      * eexists _, _. split; [done|]. simpl. repeat split; [done|].
        intros item' [= <-]. lia.
      * rewrite Hclass, bind_lift_Raise.
        eexists _, _. split; [done|]. simpl. by repeat split.
    + eexists _, _. split; [done|]. simpl. by repeat split.
Qed.

(** C9.  When the caller's role is [Admin] or [OrderFulfillmentOfficer]
    and the lookup finds the order, [deleteOrder] raises [NameError] for the
    unbound name [asyncio]: the lookup is the only request issued, the store
    is left as it was, the order is still there, and no response is
    returned. *)
Theorem deleteOrder_raises_NameError (orderId : Z) (user : User.t)
    (order : Order.t) (w : World) :
  "Admin" ∈ Role_members prisma →
  "OrderFulfillmentOfficer" ∈ Role_members prisma →
  User.role user ∈ ["Admin"; "OrderFulfillmentOfficer"] →
  orders (store w) !! orderId = Some order →
  outage w ≠ Some O →
  ∃ w',
    deleteOrder prisma orderId (Some user) w
    = (Raise (Exn NameError "name 'asyncio' is not defined"), w') ∧
    store w' = store w ∧
    orders (store w') !! orderId = Some order ∧
    calls w' = calls w ++ [FindUnique "Order" orderId].
Proof.
  intros Ha Ho Hrole Horder Hout. eexists. split.
  - unfold deleteOrder. simpl getattr. rewrite bind_lift_Ok.
    rewrite (role_not_in_declared _ _ _ _ Ha Ho), bind_lift_Ok.
    rewrite bool_decide_eq_true_2 by done. cbn [negb].
    rewrite bind_run. unfold Order_find_unique_include_items.
    rewrite store_call_served by done. simpl. rewrite Horder. simpl.
    reflexivity.
  - done.
Qed.

(** C10.  When the caller's role is neither [SalesManager] nor [Admin], or
    no order item has the given id, [deleteSalesRecord] leaves the store as
    it was and issues no write request (no update, no creation, no
    deletion); it returns a response with [success = false], provided the
    lookup it may have to make is served. *)
Theorem deleteSalesRecord_error_branches (id : Z) (user : User.t) (w : World) :
  "SalesManager" ∈ Role_members prisma →
  "Admin" ∈ Role_members prisma →
  User.role user ∉ ["SalesManager"; "Admin"] ∨ orderItems (store w) !! id = None →
  ∃ r w' issued,
    deleteSalesRecord prisma id (Some user) w = (r, w') ∧
    store w' = store w ∧
    calls w' = calls w ++ issued ∧
    Forall (fun c => is_write c = false) issued ∧
    (User.role user ∉ ["SalesManager"; "Admin"] ∨ outage w ≠ Some O →
     ∃ resp, r = Ok resp ∧ DeleteSalesResponse.success resp = false).
Proof.
  intros Hs Ha Hcase.
  unfold deleteSalesRecord. simpl getattr. rewrite bind_lift_Ok.
  rewrite (role_not_in_declared _ _ _ _ Hs Ha), bind_lift_Ok.
  case_bool_decide as Hrole; cbn [negb].
  - destruct Hcase as [Hnot|Hnone]; [done|].
    rewrite bind_run. unfold OrderItem_find_unique.
    destruct (decide (outage w = Some O)) as [Hout|Hout].
    + rewrite store_call_refused by done.
      eexists _, _, [_]. split; [done|]. simpl.
      split; [done|]. split; [done|]. split; [by repeat constructor|].
      by intros [?|?].
    + rewrite store_call_served by done. simpl. rewrite Hnone.
      eexists _, _, [_]. split; [done|]. simpl.
      split; [done|]. split; [done|]. split; [by repeat constructor|].
      intros _. by eexists.
  - eexists _, _, []. split; [done|].
    split; [done|]. split; [by rewrite app_nil_r|]. split; [constructor|].
    intros _. by eexists.
Qed.

(** C8.  Not as claimed.  The [GET /sales/trends] route returns the
    handler's response unchanged when the handler returns; when the handler
    raises, the [except] block hands the dictionary with the error message
    to [Response], whose constructor sends it [.encode]: the route itself
    raises [AttributeError] and returns no response with status 500.  The
    world is left as the handler left it. *)
Theorem route_raises_on_failures (start_date end_date : string)
    (product customer_segment : option string)
    (current_user : option User.t) (w : World) :
  match analyzeSalesTrends prisma start_date end_date product customer_segment
          current_user w with
  | (Ok res, w') =>
      api_get_analyzeSalesTrends prisma start_date end_date product
        customer_segment current_user w = (Ok (inl res), w')
  | (Raise e, w') =>
      api_get_analyzeSalesTrends prisma start_date end_date product
        customer_segment current_user w
      = (Raise (Exn AttributeError "'dict' object has no attribute 'encode'"),
         w')
  end.
Proof.
  unfold api_get_analyzeSalesTrends, try_except. rewrite bind_run.
  by destruct (analyzeSalesTrends _ _ _ _ _ _ _) as [[res|e] w'].
Qed.
End Writes.

(** The route called without a current user. *)
Example route_without_user :
  api_get_analyzeSalesTrends sample_prisma "2024-01-01" "2024-12-31" None None
    None (sample_world None)
  = (Raise (Exn AttributeError "'dict' object has no attribute 'encode'"),
     sample_world None).
Proof. reflexivity. Qed.

Lemma addSalesRecord_decrement_never_issued_sample :
  ∃ r w',
    addSalesRecord sample_prisma 1 3 (Some (sample_user "SalesManager"))
      (sample_world None) = (r, w') ∧
    store w' = store (sample_world None) ∧
    calls w' = calls (sample_world None) ++ [FindUnique "InventoryItem" 1] ∧
    (∀ response, r ≠ Ok response) ∧
    (∀ item, inventoryItems (store (sample_world None)) !! 1 = Some item →
       3 ≤ InventoryItem.quantity item →
       outage (sample_world None) ≠ Some O →
       r = Raise (Exn AttributeError "quantity")).
Proof.
  apply (addSalesRecord_decrement_never_issued sample_prisma 1 3
           (Some (sample_user "SalesManager"))
           (Exn AttributeError "quantity") (sample_world None)).
  reflexivity.
Defined.

Lemma deleteOrder_raises_NameError_sample :
  ∃ w',
    deleteOrder sample_prisma 1 (Some (sample_user "Admin")) (sample_world None)
    = (Raise (Exn NameError "name 'asyncio' is not defined"), w') ∧
    store w' = store (sample_world None) ∧
    orders (store w') !! 1 = Some (sample_order 2024 1 7 []) ∧
    calls w' = calls (sample_world None) ++ [FindUnique "Order" 1].
Proof.
  apply (deleteOrder_raises_NameError sample_prisma 1 (sample_user "Admin")
           (sample_order 2024 1 7 []) (sample_world None)).
  - apply (bool_decide_unpack _). vm_compute. exact I.
  - apply (bool_decide_unpack _). vm_compute. exact I.
  - apply (bool_decide_unpack _). vm_compute. exact I.
  - reflexivity.
  - discriminate.
Defined.

Lemma deleteSalesRecord_error_branches_sample :
  ∃ r w' issued,
    deleteSalesRecord sample_prisma 5 (Some (sample_user "SalesManager"))
      (sample_world None) = (r, w') ∧
    store w' = store (sample_world None) ∧
    calls w' = calls (sample_world None) ++ issued ∧
    Forall (fun c => is_write c = false) issued ∧
    (User.role (sample_user "SalesManager") ∉ ["SalesManager"; "Admin"]
     ∨ outage (sample_world None) ≠ Some O →
     ∃ resp, r = Ok resp ∧ DeleteSalesResponse.success resp = false).
Proof.
  apply (deleteSalesRecord_error_branches sample_prisma 5
           (sample_user "SalesManager") (sample_world None)).
  - apply (bool_decide_unpack _). vm_compute. exact I.
  - apply (bool_decide_unpack _). vm_compute. exact I.
  - right. reflexivity.
Defined.

(** * Further properties of the handlers *)

(** ** The aggregation beyond the claims *)

(** X1.  The arguments of the response are computed exactly on well-formed
    orders: an order loaded without its customer or its items, or a line
    item loaded without its product, always makes the loop raise.  A
    response is returned only on well-formed orders, and under pydantic 1
    on all of them. *)
Theorem arguments_computed_iff_well_formed (customer_segment : option string)
    (orders : list Order.t) :
  ((∃ args, sales_trends_arguments customer_segment orders = Ok args) ↔
   Forall well_formed_order orders) ∧
  (∀ pydantic_v2,
     (∃ r, aggregate_sales_trends pydantic_v2 customer_segment orders = Ok r) →
     Forall well_formed_order orders) ∧
  ((∃ r, aggregate_sales_trends false customer_segment orders = Ok r) ↔
   Forall well_formed_order orders).
Proof.
  split; [|split].
  - split.
    + intros [args Hargs]. by eapply sales_trends_arguments_Ok.
    + apply sales_trends_arguments_total.
  - intros v2 [r Hr]. by eapply aggregate_sales_trends_Ok.
  - split.
    + intros [r Hr]. by eapply aggregate_sales_trends_Ok.
    + intros Hwf.
      destruct (sales_trends_arguments_total customer_segment _ Hwf)
        as [args Hargs].
      unfold aggregate_sales_trends. rewrite Hargs. simpl.
      apply SalesTrendsResponse_init_v1.
Qed.

Lemma top_peak_filter_sublist (items all : dict string Z) (sel : list string) :
  top_peak_filter items all = Ok sel → sel `sublist_of` dict_keys items.
Proof.
  unfold dict_keys. revert sel.
  induction items as [|[p c] items IH]; intros sel; simpl.
  - intros [= <-]. constructor.
  - destruct (py_max (dict_values all)) as [m|]; [|discriminate]. simpl.
    destruct (top_peak_filter items all) as [tl|]; [|discriminate]. simpl.
    intros [= <-]. destruct (decide (c = m)).
    + apply sublist_skip. by apply IH.
    + apply sublist_cons. by apply IH.
Qed.

Lemma StronglySorted_sublist {A} (R : relation A) (l1 l2 : list A) :
  l1 `sublist_of` l2 → StronglySorted R l2 → StronglySorted R l1.
Proof.
  induction 1 as [|x l1 l2 Hsub IH|x l1 l2 Hsub IH]; intros Hs.
  - constructor.
  - apply StronglySorted_cons in Hs as [Hall Hs].
    apply StronglySorted_cons. split; [|by apply IH].
    rewrite Forall_forall in *. intros y Hy. apply Hall.
    by eapply elem_of_sublist.
  - apply StronglySorted_cons in Hs as [_ Hs]. by apply IH.
Qed.

(** X2.  The peak periods computed for the response are listed in the
    order in which their first order occurs in the input. *)
Theorem peak_periods_in_order_of_first_occurrence
    (customer_segment : option string) (orders : list Order.t) :
  Forall well_formed_order orders →
  ∃ args, sales_trends_arguments customer_segment orders = Ok args ∧
    ∀ i j p q, (i < j)%nat →
      SalesTrendsArguments.peak_periods args !! i = Some p →
      SalesTrendsArguments.peak_periods args !! j = Some q →
      (first_pos p (period_of <$> orders)
       < first_pos q (period_of <$> orders))%nat.
Proof.
  intros Hwf.
  destruct (top_peak_filter_spec (accumulate period_of count_one 0 orders))
    as (peaks & Hpeaks & _); [apply accumulate_keys_NoDup|].
  eexists. split; [by apply sales_trends_arguments_well_formed|]. simpl.
  intros i j p q Hij Hi Hj.
  apply (StronglySorted_lookup (seen_before (period_of <$> orders))
           peaks i j p q); [|done..].
  eapply StronglySorted_sublist; [by eapply top_peak_filter_sublist|].
  apply accumulate_keys_sorted.
Qed.

(** On the sample with two peak months, [2024-03] is met first. *)
Lemma peak_periods_in_order_of_first_occurrence_sample :
  ∃ args, sales_trends_arguments None sample_tie_orders = Ok args ∧
    ∀ i j p q, (i < j)%nat →
      SalesTrendsArguments.peak_periods args !! i = Some p →
      SalesTrendsArguments.peak_periods args !! j = Some q →
      (first_pos p (period_of <$> sample_tie_orders)
       < first_pos q (period_of <$> sample_tie_orders))%nat.
Proof.
  apply (peak_periods_in_order_of_first_occurrence None sample_tie_orders).
  apply (bool_decide_unpack _). vm_compute. exact I.
Defined.

Lemma dict_sum_set {K V} `{EqDecision K} (weight : V → Z) (d : dict K V)
    (k : K) (v : V) :
  dict_sum weight (dict_set d k v) =
  dict_sum weight d - from_option weight 0 (dict_get d k) + weight v.
Proof.
  induction d as [|[k' v'] d IH]; simpl; [lia|].
  destruct (decide (k' = k)); simpl; [lia|]. rewrite IH. lia.
Qed.

Lemma total_order_count_format (d : dict Z TrendEntry.t) :
  total_order_count (format_customer_trend <$> d) = dict_sum TrendEntry.count d.
Proof.
  unfold total_order_count.
  induction d as [|[c e] d IH]; csimpl; [done|]. by rewrite IH.
Qed.

Lemma total_order_count_coerced
    (d : dict Z SalesTrendsResponse.CustomerTrend) :
  total_order_count (prod_map str_Z id <$> d) = total_order_count d.
Proof.
  unfold total_order_count.
  induction d as [|[c e] d IH]; csimpl; [done|]. by rewrite IH.
Qed.

Lemma dict_sum_trends (seg : option string) (ids : list Z) :
  dict_sum TrendEntry.count (accumulate id (add_order seg) no_orders ids) =
  Z.of_nat (length ids).
Proof.
  induction ids as [|c ids IH] using rev_ind; [done|].
  rewrite accumulate_snoc, length_app. unfold upsert.
  rewrite dict_sum_set, IH. simpl.
  destruct (dict_get (accumulate id (add_order seg) no_orders ids) c);
    simpl; lia.
Qed.

Lemma customer_ids_length (orders : list Order.t) :
  Forall well_formed_order orders →
  length (customer_ids orders) = length orders.
Proof.
  unfold customer_ids.
  induction 1 as [|order orders [[c Hc] _] _ IH]; [done|].
  rewrite bind_cons, Hc. simpl. by rewrite IH.
Qed.

(** X3.  The [customer_trends] dictionary computed for the response has
    one entry per customer and its [order_count] fields add up to the
    number of orders: every order is counted for exactly one customer.  The
    same holds of the dictionary of a response that is returned. *)
Theorem customer_trends_account_for_every_order
    (customer_segment : option string) (orders : list Order.t) :
  Forall well_formed_order orders →
  ∃ args, sales_trends_arguments customer_segment orders = Ok args ∧
    NoDup (dict_keys (SalesTrendsArguments.customer_trends args)) ∧
    total_order_count (SalesTrendsArguments.customer_trends args)
    = Z.of_nat (length orders) ∧
    ∀ pydantic_v2 r,
      aggregate_sales_trends pydantic_v2 customer_segment orders = Ok r →
      NoDup (dict_keys (SalesTrendsResponse.customer_trends r)) ∧
      total_order_count (SalesTrendsResponse.customer_trends r)
      = Z.of_nat (length orders).
Proof.
  intros Hwf.
  destruct (top_peak_filter_spec (accumulate period_of count_one 0 orders))
    as (peaks & Hpeaks & _); [apply accumulate_keys_NoDup|].
  pose proof (sales_trends_arguments_well_formed customer_segment _ _
                Hwf Hpeaks) as Hargs.
  eexists. split; [exact Hargs|]. simpl.
  assert (total_order_count
            (format_customer_trend
               <$> accumulate id (add_order customer_segment) no_orders
                     (customer_ids orders))
          = Z.of_nat (length orders)) as Hsum
    by by rewrite total_order_count_format, dict_sum_trends,
         customer_ids_length.
  split; [apply trends_keys_NoDup|]. split; [done|].
  intros v2 r Hr.
  destruct (returned_fields _ _ _ _ _ Hargs Hr) as (_ & _ & ->). simpl.
  rewrite coerce_keys_fmap by apply trends_keys_NoDup.
  rewrite dict_keys_coerced, total_order_count_coerced. split; [|done].
  apply NoDup_fmap_2_strong; [|apply trends_keys_NoDup].
  intros c c' _ _. apply str_Z_inj.
Qed.

Lemma customer_trends_account_for_every_order_sample :
  ∃ args, sales_trends_arguments None sample_orders = Ok args ∧
    NoDup (dict_keys (SalesTrendsArguments.customer_trends args)) ∧
    total_order_count (SalesTrendsArguments.customer_trends args)
    = Z.of_nat (length sample_orders) ∧
    ∀ pydantic_v2 r,
      aggregate_sales_trends pydantic_v2 None sample_orders = Ok r →
      NoDup (dict_keys (SalesTrendsResponse.customer_trends r)) ∧
      total_order_count (SalesTrendsResponse.customer_trends r)
      = Z.of_nat (length sample_orders).
Proof.
  apply (customer_trends_account_for_every_order None sample_orders).
  apply (bool_decide_unpack _). vm_compute. exact I.
Defined.

(** X4.  The set of peak periods and the entry of every customer, as
    computed for the response, do not depend on the order in which the
    store returns the orders. *)
Theorem aggregation_insensitive_to_order (customer_segment : option string)
    (orders orders' : list Order.t) :
  orders ≡ₚ orders' →
  Forall well_formed_order orders →
  ∃ args args',
    sales_trends_arguments customer_segment orders = Ok args ∧
    sales_trends_arguments customer_segment orders' = Ok args' ∧
    (∀ p, p ∈ SalesTrendsArguments.peak_periods args ↔
          p ∈ SalesTrendsArguments.peak_periods args') ∧
    (∀ c, dict_get (SalesTrendsArguments.customer_trends args) c =
          dict_get (SalesTrendsArguments.customer_trends args') c).
Proof.
  intros Hperm Hwf.
  assert (Forall well_formed_order orders') as Hwf' by by rewrite <-Hperm.
  destruct (top_peak_filter_spec (accumulate period_of count_one 0 orders))
    as (peaks & Hpeaks & _); [apply accumulate_keys_NoDup|].
  destruct (top_peak_filter_spec (accumulate period_of count_one 0 orders'))
    as (peaks' & Hpeaks' & _); [apply accumulate_keys_NoDup|].
  eexists _, _.
  split; [by apply sales_trends_arguments_well_formed|].
  split; [by apply sales_trends_arguments_well_formed|]. simpl.
  split.
  - intros p.
    rewrite (peaks_characterised _ _ Hpeaks), (peaks_characterised _ _ Hpeaks').
    unfold orders_in_period.
    assert (∀ q, length (filter (fun o => period_of o = q) orders)
                 = length (filter (fun o => period_of o = q) orders')) as Hcount
      by (intros q; by rewrite Hperm).
    rewrite Hperm. split; intros [Hin Hmax]; (split; [done|]); intros q.
    + rewrite <-!Hcount. apply Hmax.
    + rewrite !Hcount. apply Hmax.
  - intros c. rewrite !trends_characterised. unfold orders_of_customer.
    assert (customer_ids orders ≡ₚ customer_ids orders') as Hids
      by (unfold customer_ids; by rewrite Hperm).
    assert (length (filter (fun c' => c' = c) (customer_ids orders))
            = length (filter (fun c' => c' = c) (customer_ids orders'))) as ->
      by by rewrite Hids.
    destruct (decide (c ∈ customer_ids orders)) as [Hin|Hnin].
    + rewrite !bool_decide_eq_true_2; [done| by rewrite <-Hids |done].
    + rewrite !bool_decide_eq_false_2; [done| by rewrite <-Hids |done].
Qed.

Lemma aggregation_insensitive_to_order_sample :
  ∃ args args',
    sales_trends_arguments None sample_orders = Ok args ∧
    sales_trends_arguments None (reverse sample_orders) = Ok args' ∧
    (∀ p, p ∈ SalesTrendsArguments.peak_periods args ↔
          p ∈ SalesTrendsArguments.peak_periods args') ∧
    (∀ c, dict_get (SalesTrendsArguments.customer_trends args) c =
          dict_get (SalesTrendsArguments.customer_trends args') c).
Proof.
  apply (aggregation_insensitive_to_order None sample_orders
           (reverse sample_orders)).
  - symmetry. apply reverse_Permutation.
  - apply (bool_decide_unpack _). vm_compute. exact I.
Defined.

(** The order of the input does matter for [top_products]: equal totals are
    listed as first encountered. *)
Example top_products_depend_on_order :
  SalesTrendsArguments.top_products
    <$> sales_trends_arguments None
          [sample_order 2024 1 1 [sample_line "a" 1; sample_line "b" 1]]
  = Ok ["a"; "b"] ∧
  SalesTrendsArguments.top_products
    <$> sales_trends_arguments None
          [sample_order 2024 1 1 [sample_line "b" 1; sample_line "a" 1]]
  = Ok ["b"; "a"].
Proof. split; vm_compute; reflexivity. Qed.

(** X5.  The [customer_segment] argument only labels the customer entries:
    the peak periods, the top products and every customer's order count
    computed for the response are the same whatever its value. *)
Theorem aggregation_does_not_filter_by_segment (seg1 seg2 : option string)
    (orders : list Order.t) :
  Forall well_formed_order orders →
  ∃ args1 args2,
    sales_trends_arguments seg1 orders = Ok args1 ∧
    sales_trends_arguments seg2 orders = Ok args2 ∧
    SalesTrendsArguments.peak_periods args1
    = SalesTrendsArguments.peak_periods args2 ∧
    SalesTrendsArguments.top_products args1
    = SalesTrendsArguments.top_products args2 ∧
    ∀ c, SalesTrendsResponse.order_count
           <$> dict_get (SalesTrendsArguments.customer_trends args1) c
         = SalesTrendsResponse.order_count
           <$> dict_get (SalesTrendsArguments.customer_trends args2) c.
Proof.
  intros Hwf.
  destruct (top_peak_filter_spec (accumulate period_of count_one 0 orders))
    as (peaks & Hpeaks & _); [apply accumulate_keys_NoDup|].
  eexists _, _.
  split; [by apply sales_trends_arguments_well_formed|].
  split; [by apply sales_trends_arguments_well_formed|]. simpl.
  split; [done|]. split; [done|].
  intros c. rewrite !trends_characterised. by case_bool_decide.
Qed.

Lemma aggregation_does_not_filter_by_segment_sample :
  ∃ args1 args2,
    sales_trends_arguments None sample_orders = Ok args1 ∧
    sales_trends_arguments (Some "retail") sample_orders = Ok args2 ∧
    SalesTrendsArguments.peak_periods args1
    = SalesTrendsArguments.peak_periods args2 ∧
    SalesTrendsArguments.top_products args1
    = SalesTrendsArguments.top_products args2 ∧
    ∀ c, SalesTrendsResponse.order_count
           <$> dict_get (SalesTrendsArguments.customer_trends args1) c
         = SalesTrendsResponse.order_count
           <$> dict_get (SalesTrendsArguments.customer_trends args2) c.
Proof.
  apply (aggregation_does_not_filter_by_segment None (Some "retail")
           sample_orders).
  apply (bool_decide_unpack _). vm_compute. exact I.
Defined.

(** X8.  Under pydantic 2 the aggregation returns a response only for the
    empty collection of orders. *)
Theorem aggregation_v2_returns_only_empty (customer_segment : option string)
    (orders : list Order.t) (r : SalesTrendsResponse.t) :
  aggregate_sales_trends true customer_segment orders = Ok r →
  orders = [] ∧
  r = {| SalesTrendsResponse.peak_periods := [];
         SalesTrendsResponse.top_products := [];
         SalesTrendsResponse.customer_trends := [] |}.
Proof.
  intros Hr.
  pose proof (aggregate_sales_trends_Ok _ _ _ _ Hr) as Hwf.
  apply aggregate_sales_trends_inv in Hr as (args & Hargs & Hinit).
  destruct orders as [|order orders].
  - injection Hargs as <-. by injection Hinit as <-.
  - exfalso.
    assert (order :: orders ≠ []) as Hne by done.
    pose proof (customer_trends_nonempty _ _ _ Hwf Hne Hargs) as Htrends.
    destruct (SalesTrendsResponse_init_v2 _ Htrends) as [msg Hmsg].
    congruence.
Qed.

Lemma aggregation_v2_returns_only_empty_sample :
  [] = @nil Order.t ∧
  {| SalesTrendsResponse.peak_periods := [];
     SalesTrendsResponse.top_products := [];
     SalesTrendsResponse.customer_trends := [] |}
  = {| SalesTrendsResponse.peak_periods := [];
       SalesTrendsResponse.top_products := [];
       SalesTrendsResponse.customer_trends := [] |}.
Proof.
  apply (aggregation_v2_returns_only_empty (Some "retail") []
           {| SalesTrendsResponse.peak_periods := [];
              SalesTrendsResponse.top_products := [];
              SalesTrendsResponse.customer_trends := [] |}).
  reflexivity.
Defined.

(** ** Reasoning about what a run leaves alone *)

Section Preserves.
Context (R : relation World) `{!Reflexive R} `{!Transitive R}.

Lemma preserves_ret {A} (a : A) : preserves R (mret a).
Proof. intros w. simpl. reflexivity. Qed.

Lemma preserves_lift {A} (r : Result A) : preserves R (lift r).
Proof. intros w. simpl. reflexivity. Qed.

Lemma preserves_raise {A} (e : exn) : preserves R (@raise A e).
Proof. apply preserves_lift. Qed.

Lemma preserves_bind {A B} (m : M A) (f : A → M B) :
  preserves R m → (∀ a, preserves R (f a)) → preserves R (m ≫= f).
Proof.
  intros Hm Hf w. rewrite bind_run. specialize (Hm w).
  destruct (m w) as [[a|e] w1]; simpl in *; [|done].
  etransitivity; [exact Hm | apply Hf].
Qed.

Lemma preserves_bind_Raise {A B} (e : exn) (f : A → M B) :
  preserves R (lift (Raise e) ≫= f).
Proof. intros w. rewrite bind_lift_Raise. simpl. reflexivity. Qed.

Lemma preserves_store_call {A} (c : Call) (serve : Store → A * Store) :
  (∀ w, R w (refused w c)) →
  (∀ w, R w (served w c (serve (store w)).2)) →
  preserves R (store_call c serve).
Proof.
  intros Hrefused Hserved w.
  destruct (decide (outage w = Some O)) as [Hout|Hout].
  - rewrite store_call_refused by done. apply Hrefused.
  - rewrite store_call_served by done. apply Hserved.
Qed.

Lemma preserves_try_except {A} (body : M A) (handler : exn → M A) :
  preserves R body → (∀ e, preserves R (handler e)) →
  preserves R (try_except body handler).
Proof.
  intros Hbody Hhandler w. unfold try_except. specialize (Hbody w).
  destruct (body w) as [[a|e] w1]; simpl in *; [done|].
  etransitivity; [exact Hbody | apply Hhandler].
Qed.
End Preserves.

#[local] Instance reads_only_refl : Reflexive reads_only.
Proof.
  intros w. split; [done|]. exists []. by rewrite app_nil_r.
Qed.

#[local] Instance reads_only_trans : Transitive reads_only.
Proof.
  intros w1 w2 w3 [Hs1 (i1 & Hc1 & Hr1)] [Hs2 (i2 & Hc2 & Hr2)].
  split; [congruence|]. exists (i1 ++ i2).
  split; [by rewrite Hc2, Hc1, <-app_assoc | by apply Forall_app].
Qed.

(** A read request relates the worlds around it by [reads_only]. *)
Lemma preserves_read {A} (c : Call) (read : Store → A) :
  is_write c = false →
  preserves reads_only (store_call c (fun st => (read st, st))).
Proof.
  intros Hc. apply preserves_store_call; intros w;
    (split; [done|]); exists [c]; by repeat constructor.
Qed.

Section MoreOnTheGate.
Context (prisma : PrismaClient).

Lemma analyzeSalesTrends_preserves (start_date end_date : string)
    (product customer_segment : option string)
    (current_user : option User.t) :
  preserves reads_only
    (analyzeSalesTrends prisma start_date end_date product customer_segment
       current_user).
Proof.
  unfold analyzeSalesTrends.
  apply preserves_bind; [apply _..|apply preserves_lift; apply _|].
  intros [|]; [apply preserves_raise; apply _|].
  apply preserves_bind; [apply _..| |].
  - by apply preserves_read.
  - intros orders. apply preserves_lift; apply _.
Qed.

(** X6.  [analyzeSalesTrends] never writes: whatever its arguments and
    whatever the outcome, the store is left as it was and only read
    requests were issued. *)
Theorem analyzeSalesTrends_reads_only (start_date end_date : string)
    (product customer_segment : option string)
    (current_user : option User.t) (w : World) :
  reads_only w
    (analyzeSalesTrends prisma start_date end_date product customer_segment
       current_user w).2.
Proof. apply analyzeSalesTrends_preserves. Qed.

(** X7.  A call that ends in [PermissionError] has issued no request to the
    store: the world is exactly as before. *)
Theorem analyzeSalesTrends_denied_untouched (start_date end_date : string)
    (product customer_segment : option string)
    (current_user : option User.t) (w w' : World) (msg : string) :
  analyzeSalesTrends prisma start_date end_date product customer_segment
    current_user w = (Raise (Exn PermissionError msg), w') →
  w' = w.
Proof.
  unfold analyzeSalesTrends. rewrite bind_run. unfold lift at 1.
  destruct (match current_user with
            | Some user => role_not_in prisma (User.role user) _
            | None => Ok true
            end) as [[|]|e].
  - by intros [= _ <-].
  - intros Hrun. exfalso.
    eapply (find_and_aggregate_no_permission_error prisma).
    by rewrite Hrun.
  - by intros [= _ <-].
Qed.


End MoreOnTheGate.

Lemma analyzeSalesTrends_denied_untouched_sample :
  analyzeSalesTrends sample_prisma "2024-01-01" "2024-12-31" None None
    None (sample_world None)
  = (Raise (Exn PermissionError
              "Access denied: user is not authorized or not active."),
     sample_world None) ∧
  sample_world None = sample_world None.
Proof.
  split; [vm_compute; reflexivity|].
  apply (analyzeSalesTrends_denied_untouched sample_prisma
           "2024-01-01" "2024-12-31" None None None
           (sample_world None) (sample_world None)
           "Access denied: user is not authorized or not active.").
  vm_compute. reflexivity.
Defined.



(** ** Inverting a run *)

Lemma bind_Ok_inv {A B} (m : M A) (f : A → M B) (w w' : World) (b : B) :
  (m ≫= f) w = (Ok b, w') →
  ∃ a w1, m w = (Ok a, w1) ∧ f a w1 = (Ok b, w').
Proof.
  rewrite bind_run. destruct (m w) as [[a|e] w1]; [|discriminate].
  intros Hf. by exists a, w1.
Qed.

Lemma store_call_Ok_inv {A} (c : Call) (serve : Store → A * Store)
    (w w' : World) (a : A) :
  store_call c serve w = (Ok a, w') →
  outage w ≠ Some O ∧ a = (serve (store w)).1 ∧
  w' = served w c (serve (store w)).2.
Proof.
  destruct (decide (outage w = Some O)) as [Hout|Hout].
  - by rewrite store_call_refused.
  - rewrite store_call_served by done. by intros [= <- <-].
Qed.

Lemma store_call_Raise_inv {A} (c : Call) (serve : Store → A * Store)
    (w w' : World) (e : exn) :
  store_call c serve w = (Raise e, w') →
  e = Exn PrismaError "store request failed" ∧ w' = refused w c.
Proof.
  destruct (decide (outage w = Some O)) as [Hout|Hout].
  - rewrite store_call_refused by done. by intros [= <- <-].
  - by rewrite store_call_served.
Qed.

Lemma lift_Ok_inv {A} (r : Result A) (w w' : World) (a : A) :
  lift r w = (Ok a, w') → r = Ok a ∧ w' = w.
Proof. unfold lift. by intros [= -> <-]. Qed.

(** ** addSalesRecord beyond the claim *)

#[local] Instance sale_frame_refl product_id : Reflexive (sale_frame product_id).
Proof.
  intros w. repeat split; try done. exists []. by rewrite app_nil_r.
Qed.

#[local] Instance sale_frame_trans product_id :
  Transitive (sale_frame product_id).
Proof.
  intros w1 w2 w3 (Ho1 & Hi1 & Hd1 & Hr1 & n1 & Hl1)
    (Ho2 & Hi2 & Hd2 & Hr2 & n2 & Hl2).
  split; [congruence|]. split; [congruence|]. split; [congruence|].
  split.
  - intros j Hj. by rewrite Hr2, Hr1.
  - exists (n1 ++ n2). by rewrite Hl2, Hl1, <-app_assoc.
Qed.

Lemma sale_frame_same_store product_id (w w' : World) :
  store w' = store w → sale_frame product_id w w'.
Proof.
  intros Hst. unfold sale_frame. rewrite Hst.
  repeat split; try done. exists []. by rewrite app_nil_r.
Qed.

Section MoreOnSales.
Context (prisma : PrismaClient).

(** X11.  When the product does not exist or its stock is below the
    requested quantity, [addSalesRecord] raises [ValueError] after its one
    read: nothing is written. *)
Theorem addSalesRecord_rejects (product_id quantity : Z)
    (current_user : option User.t) (w : World) :
  outage w ≠ Some O →
  (inventoryItems (store w) !! product_id = None ∨
   ∃ item, inventoryItems (store w) !! product_id = Some item ∧
           InventoryItem.quantity item < quantity) →
  ∃ msg,
    addSalesRecord prisma product_id quantity current_user w
    = (Raise (Exn ValueError msg),
       served w (FindUnique "InventoryItem" product_id) (store w)) ∧
    (msg = "Inventory item not found" ∨ msg = "Insufficient stock available").
Proof.
  intros Hout Hcase. unfold addSalesRecord. rewrite bind_run.
  unfold InventoryItem_find_unique. rewrite store_call_served by done. simpl.
  destruct Hcase as [->|(item & -> & Hlow)].
  - eexists. split; [reflexivity | by left].
  - destruct (Z.ltb_spec (InventoryItem.quantity item) quantity); [|lia].
    eexists. split; [reflexivity | by right].
Qed.

(** X12.  The stock check is strict: with the product found, the call
    fails with "Insufficient stock available" exactly when the stock is
    below the requested quantity.  A sale of the whole stock, of zero or of
    a negative quantity passes the check, and then ends in the
    [AttributeError] of the class-level [InventoryItem.quantity]. *)
Theorem addSalesRecord_stock_check (product_id quantity : Z) (msg : string)
    (current_user : option User.t) (item : InventoryItem.t) (w : World) :
  InventoryItem_quantity prisma = Raise (Exn AttributeError msg) →
  outage w ≠ Some O →
  inventoryItems (store w) !! product_id = Some item →
  ((addSalesRecord prisma product_id quantity current_user w).1
   = Raise (Exn ValueError "Insufficient stock available")
   ↔ InventoryItem.quantity item < quantity) ∧
  ((addSalesRecord prisma product_id quantity current_user w).1
   = Raise (Exn AttributeError msg)
   ↔ quantity ≤ InventoryItem.quantity item).
Proof.
  intros Hclass Hout Hitem. unfold addSalesRecord. rewrite bind_run.
  unfold InventoryItem_find_unique. rewrite store_call_served by done. simpl.
  rewrite Hitem.
  destruct (Z.ltb_spec (InventoryItem.quantity item) quantity) as [Hlt|Hge].
  - split; [done|]. split; [done|lia].
  - rewrite Hclass, bind_lift_Raise. simpl. split; [|done].
    split; [done|lia].
Qed.


(** X14.  Whatever its arguments and outcome, [addSalesRecord] touches
    nothing but the inventory row of the product and the log: orders and
    order items are as before, no inventory row is added or removed, every
    other row is unchanged and existing log entries are kept. *)
Theorem addSalesRecord_frame (product_id quantity : Z)
    (current_user : option User.t) (w : World) :
  sale_frame product_id w
    (addSalesRecord prisma product_id quantity current_user w).2.
Proof.
  revert w. change (preserves (sale_frame product_id)
    (addSalesRecord prisma product_id quantity current_user)).
  unfold addSalesRecord.
  apply preserves_bind; [apply _..| |].
  { apply preserves_store_call; intros w; by apply sale_frame_same_store. }
  intros [item|]; [|apply preserves_raise; apply _].
  destruct (_ <? _); [apply preserves_raise; apply _|].
  apply preserves_bind; [apply _..|apply preserves_lift; apply _|].
  intros class_quantity.
  apply preserves_bind; [apply _..| |].
  { apply preserves_store_call; intros w; [by apply sale_frame_same_store|].
    destruct (inventoryItems (store w) !! product_id) as [it|] eqn:Hit;
      simpl; [|by apply sale_frame_same_store].
    repeat split; simpl; try done.
    - apply dom_insert_lookup_L. by rewrite Hit.
    - intros j Hj. by rewrite lookup_insert_ne.
    - exists []. by rewrite app_nil_r. }
  intros updated.
  apply preserves_bind; [apply _..|apply preserves_lift; apply _|].
  intros changedBy.
  apply preserves_bind; [apply _..| |].
  { apply preserves_store_call; intros w; [by apply sale_frame_same_store|].
    repeat split; simpl; try done. by eexists. }
  intros log.
  apply preserves_bind; [apply _..|apply preserves_lift; apply _|].
  intros updated_quantity. apply preserves_ret; apply _.
Qed.

(** X15.  Without a current user [addSalesRecord] never returns a
    response: every run ends in an exception. *)
Theorem addSalesRecord_without_user_raises (product_id quantity : Z)
    (w : World) :
  ∃ e, (addSalesRecord prisma product_id quantity None w).1 = Raise e.
Proof.
  destruct (addSalesRecord prisma product_id quantity None w)
    as [[resp|e] w'] eqn:Hrun; [|by eexists].
  exfalso. unfold addSalesRecord in Hrun.
  apply bind_Ok_inv in Hrun as (found & w1 & _ & Hrun).
  destruct found as [item|]; [|discriminate].
  destruct (_ <? _); [discriminate|].
  apply bind_Ok_inv in Hrun as (c & w2 & _ & Hrun).
  apply bind_Ok_inv in Hrun as (updated & w3 & _ & Hrun).
  apply bind_Ok_inv in Hrun as (changedBy & w4 & Hid & _).
  discriminate.
Qed.

End MoreOnSales.

Lemma addSalesRecord_rejects_sample :
  ∃ msg,
    addSalesRecord sample_prisma 1 11 (Some (sample_user "SalesManager"))
      (sample_world None)
    = (Raise (Exn ValueError msg),
       served (sample_world None) (FindUnique "InventoryItem" 1)
         (store (sample_world None))) ∧
    (msg = "Inventory item not found" ∨ msg = "Insufficient stock available").
Proof.
  apply (addSalesRecord_rejects sample_prisma 1 11
           (Some (sample_user "SalesManager")) (sample_world None)).
  - discriminate.
  - right. exists (sample_product "ProductA"). split; [reflexivity|].
    simpl. lia.
Defined.

Lemma addSalesRecord_stock_check_sample :
  ((addSalesRecord sample_prisma 1 11 None (sample_world None)).1
   = Raise (Exn ValueError "Insufficient stock available")
   ↔ InventoryItem.quantity (sample_product "ProductA") < 11) ∧
  ((addSalesRecord sample_prisma 1 11 None (sample_world None)).1
   = Raise (Exn AttributeError "quantity")
   ↔ 11 ≤ InventoryItem.quantity (sample_product "ProductA")).
Proof.
  apply (addSalesRecord_stock_check sample_prisma 1 11 "quantity" None
           (sample_product "ProductA") (sample_world None)).
  - reflexivity.
  - discriminate.
  - reflexivity.
Defined.



(** ** deleteOrder beyond the claim *)

Lemma returns_only_bind {A B} (P : B → Prop) (m : M A) (f : A → M B) :
  (∀ a, returns_only P (f a)) → returns_only P (m ≫= f).
Proof.
  intros Hf w b w' Hrun.
  apply bind_Ok_inv in Hrun as (a & w1 & _ & Hrun). by eapply Hf.
Qed.

Lemma returns_only_bind_Raise {A B} (P : B → Prop) (e : exn) (f : A → M B) :
  returns_only P (lift (Raise e) ≫= f).
Proof. intros w b w'. by rewrite bind_lift_Raise. Qed.

Lemma returns_only_ret {A} (P : A → Prop) (a : A) :
  P a → returns_only P (mret a).
Proof. intros Ha w a' w' [= <- _]. done. Qed.

Section MoreOnDeleteOrder.
Context (prisma : PrismaClient).

(** X17.  [deleteOrder] never deletes and never reports success: for every
    caller, order id and state of the store, the store is left as it was,
    only read requests are issued, and a returned response has
    [success = false]. *)
Theorem deleteOrder_never_succeeds (orderId : Z) (current_user : option User.t)
    (w : World) :
  reads_only w (deleteOrder prisma orderId current_user w).2 ∧
  ∀ resp, (deleteOrder prisma orderId current_user w).1 = Ok resp →
          DeleteOrderResponse.success resp = false.
Proof.
  split.
  - revert w. change (preserves reads_only
      (deleteOrder prisma orderId current_user)).
    unfold deleteOrder.
    apply preserves_bind; [apply _..|apply preserves_lift; apply _|].
    intros role.
    apply preserves_bind; [apply _..|apply preserves_lift; apply _|].
    intros [|]; [apply preserves_ret; apply _|].
    apply preserves_bind; [apply _..|by apply preserves_read|].
    intros [order|]; [|apply preserves_ret; apply _].
    apply preserves_bind; [apply _..|apply preserves_lift; apply _|].
    intros items. apply preserves_bind_Raise; apply _.
  - intros resp Hresp.
    destruct (deleteOrder prisma orderId current_user w) as [r w'] eqn:Hrun.
    simpl in Hresp. subst r. revert w resp w' Hrun.
    change (returns_only (fun resp => DeleteOrderResponse.success resp = false)
              (deleteOrder prisma orderId current_user)).
    unfold deleteOrder.
    apply returns_only_bind. intros role.
    apply returns_only_bind. intros [|]; [by apply returns_only_ret|].
    apply returns_only_bind. intros [order|]; [|by apply returns_only_ret].
    apply returns_only_bind. intros items.
    apply returns_only_bind_Raise.
Qed.

(** X18.  [deleteOrder] reports a refusal in the response body instead of
    raising: a caller whose role is not allowed gets "Permission denied."
    without any request to the store, and an unknown order id gets "Order
    not found." after the lookup. *)
Theorem deleteOrder_refusals (orderId : Z) (user : User.t) (w : World) :
  "Admin" ∈ Role_members prisma →
  "OrderFulfillmentOfficer" ∈ Role_members prisma →
  (User.role user ∉ ["Admin"; "OrderFulfillmentOfficer"] →
   deleteOrder prisma orderId (Some user) w
   = (Ok {| DeleteOrderResponse.success := false;
            DeleteOrderResponse.message := "Permission denied." |}, w)) ∧
  (User.role user ∈ ["Admin"; "OrderFulfillmentOfficer"] →
   outage w ≠ Some O →
   orders (store w) !! orderId = None →
   deleteOrder prisma orderId (Some user) w
   = (Ok {| DeleteOrderResponse.success := false;
            DeleteOrderResponse.message := "Order not found." |},
      served w (FindUnique "Order" orderId) (store w))).
Proof.
  intros Ha Ho. split.
  - intros Hrole. unfold deleteOrder. simpl getattr. rewrite bind_lift_Ok.
    rewrite (role_not_in_declared _ _ _ _ Ha Ho), bind_lift_Ok.
    by rewrite bool_decide_eq_false_2.
  - intros Hrole Hout Hnone. unfold deleteOrder. simpl getattr.
    rewrite bind_lift_Ok.
    rewrite (role_not_in_declared _ _ _ _ Ha Ho), bind_lift_Ok.
    rewrite bool_decide_eq_true_2 by done. cbn [negb].
    rewrite bind_run. unfold Order_find_unique_include_items.
    rewrite store_call_served by done. simpl. by rewrite Hnone.
Qed.

End MoreOnDeleteOrder.

Lemma deleteOrder_refusals_sample :
  (User.role (sample_user "SalesManager") ∉ ["Admin"; "OrderFulfillmentOfficer"] →
   deleteOrder sample_prisma 1 (Some (sample_user "SalesManager"))
     (sample_world None)
   = (Ok {| DeleteOrderResponse.success := false;
            DeleteOrderResponse.message := "Permission denied." |},
      sample_world None)) ∧
  (User.role (sample_user "SalesManager") ∈ ["Admin"; "OrderFulfillmentOfficer"] →
   outage (sample_world None) ≠ Some O →
   orders (store (sample_world None)) !! 1 = None →
   deleteOrder sample_prisma 1 (Some (sample_user "SalesManager"))
     (sample_world None)
   = (Ok {| DeleteOrderResponse.success := false;
            DeleteOrderResponse.message := "Order not found." |},
      served (sample_world None) (FindUnique "Order" 1)
        (store (sample_world None)))).
Proof.
  apply (deleteOrder_refusals sample_prisma 1 (sample_user "SalesManager")
           (sample_world None)).
  - apply (bool_decide_unpack _). vm_compute. exact I.
  - apply (bool_decide_unpack _). vm_compute. exact I.
Defined.


(** ** deleteSalesRecord beyond the claim *)

#[local] Instance delete_sale_frame_refl id : Reflexive (delete_sale_frame id).
Proof.
  intros w. repeat split; try done. exists []. by rewrite app_nil_r.
Qed.

#[local] Instance delete_sale_frame_trans id : Transitive (delete_sale_frame id).
Proof.
  intros w1 w2 w3 (Ho1 & Hi1 & Hd1 & n1 & Hl1) (Ho2 & Hi2 & Hd2 & n2 & Hl2).
  split; [congruence|]. split; [|split; [congruence|]].
  - intros j Hj. by rewrite Hi2, Hi1.
  - exists (n1 ++ n2). by rewrite Hl2, Hl1, <-app_assoc.
Qed.

Lemma delete_sale_frame_same_store id (w w' : World) :
  store w' = store w → delete_sale_frame id w w'.
Proof.
  intros Hst. unfold delete_sale_frame. rewrite Hst.
  repeat split; try done. exists []. by rewrite app_nil_r.
Qed.

Section MoreOnDeleteSales.
Context (prisma : PrismaClient).

(** X20.  A deletion that goes through for an order item whose product
    exists returns [success = true]; afterwards the order item is gone, the
    product's quantity is larger by the item's quantity, and the log has
    one more entry of type "Adjusted" for that product, user and
    quantity. *)
Theorem deleteSalesRecord_restores_stock (id : Z) (user : User.t)
    (order_item : OrderItem.t) (product : InventoryItem.t) (st : Store)
    (issued : list Call) :
  "SalesManager" ∈ Role_members prisma →
  "Admin" ∈ Role_members prisma →
  User.role user ∈ ["SalesManager"; "Admin"] →
  orderItems st !! id = Some order_item →
  inventoryItems st !! OrderItem.itemId order_item = Some product →
  deleteSalesRecord prisma id (Some user)
    {| store := st; outage := None; calls := issued |}
  = (Ok {| DeleteSalesResponse.success := true;
           DeleteSalesResponse.message :=
             "Sales record deleted successfully and inventory restored." |},
     {| store :=
          {| inventoryItems :=
               <[OrderItem.itemId order_item :=
                   {| InventoryItem.id := InventoryItem.id product;
                      InventoryItem.name := InventoryItem.name product;
                      InventoryItem.quantity :=
                        InventoryItem.quantity product
                        + OrderItem.quantity order_item |}]>
                 (inventoryItems st);
             inventoryLogs :=
               inventoryLogs st ++
               [{| InventoryLog.id := Z.of_nat (S (length (inventoryLogs st)));
                   InventoryLog.itemId := OrderItem.itemId order_item;
                   InventoryLog.changedBy := User.id user;
                   InventoryLog.changeType := "Adjusted";
                   InventoryLog.amount := OrderItem.quantity order_item |}];
             orderItems := delete id (orderItems st);
             orders := orders st |};
        outage := None;
        calls := issued ++
                 [FindUnique "OrderItem" id;
                  FindUnique "InventoryItem" (OrderItem.itemId order_item);
                  Update "InventoryItem" (OrderItem.itemId order_item);
                  Create "InventoryLog";
                  Delete "OrderItem" id] |}).
Proof.
  intros Hs Ha Hrole Hoi Hinv.
  unfold deleteSalesRecord. simpl getattr. rewrite bind_lift_Ok.
  rewrite (role_not_in_declared _ _ _ _ Hs Ha), bind_lift_Ok.
  rewrite bool_decide_eq_true_2 by done. cbn [negb].
  unfold OrderItem_find_unique, InventoryItem_find_unique,
    InventoryItem_update, InventoryLog_create, OrderItem_delete.
  repeat first
    [ rewrite bind_lift_Ok | rewrite bind_run
    | rewrite store_call_served by done
    | rewrite Hoi | rewrite Hinv | progress simpl ].
  unfold served. simpl. by rewrite <-!app_assoc.
Qed.

(** X21.  When the product of the order item no longer exists, the order
    item is deleted all the same and [success = true] is returned, with no
    inventory update and no log entry. *)
Theorem deleteSalesRecord_orphan_item (id : Z) (user : User.t)
    (order_item : OrderItem.t) (st : Store) (issued : list Call) :
  "SalesManager" ∈ Role_members prisma →
  "Admin" ∈ Role_members prisma →
  User.role user ∈ ["SalesManager"; "Admin"] →
  orderItems st !! id = Some order_item →
  inventoryItems st !! OrderItem.itemId order_item = None →
  deleteSalesRecord prisma id (Some user)
    {| store := st; outage := None; calls := issued |}
  = (Ok {| DeleteSalesResponse.success := true;
           DeleteSalesResponse.message :=
             "Sales record deleted successfully and inventory restored." |},
     {| store :=
          {| inventoryItems := inventoryItems st;
             inventoryLogs := inventoryLogs st;
             orderItems := delete id (orderItems st);
             orders := orders st |};
        outage := None;
        calls := issued ++
                 [FindUnique "OrderItem" id;
                  FindUnique "InventoryItem" (OrderItem.itemId order_item);
                  Delete "OrderItem" id] |}).
Proof.
  intros Hs Ha Hrole Hoi Hinv.
  unfold deleteSalesRecord. simpl getattr. rewrite bind_lift_Ok.
  rewrite (role_not_in_declared _ _ _ _ Hs Ha), bind_lift_Ok.
  rewrite bool_decide_eq_true_2 by done. cbn [negb].
  unfold OrderItem_find_unique, InventoryItem_find_unique,
    InventoryItem_update, InventoryLog_create, OrderItem_delete.
  repeat first
    [ rewrite bind_lift_Ok | rewrite bind_run
    | rewrite store_call_served by done
    | rewrite Hoi | rewrite Hinv | progress simpl ].
  unfold served. simpl. by rewrite <-!app_assoc.
Qed.

(** After a run that reported success the order item is gone. *)
Lemma deleteSalesRecord_success_removes (id : Z) (current_user : option User.t)
    (w w' : World) (resp : DeleteSalesResponse.t) :
  deleteSalesRecord prisma id current_user w = (Ok resp, w') →
  DeleteSalesResponse.success resp = true →
  orderItems (store w') !! id = None ∧
  ∃ user, current_user = Some user ∧
          role_not_in prisma (User.role user) ["SalesManager"; "Admin"]
          = Ok false.
Proof.
  unfold deleteSalesRecord. intros Hrun Hsuccess.
  apply bind_Ok_inv in Hrun as (role & w1 & Hrole & Hrun).
  apply lift_Ok_inv in Hrole as [Hrole ->].
  destruct current_user as [user|]; [|discriminate].
  injection Hrole as <-.
  apply bind_Ok_inv in Hrun as (denied & w1 & Hdenied & Hrun).
  apply lift_Ok_inv in Hdenied as [Hdenied ->].
  destruct denied.
  { injection Hrun as <- _. discriminate. }
  apply bind_Ok_inv in Hrun as (found & w1 & _ & Hrun).
  destruct found as [order_item|].
  2: { injection Hrun as <- _. discriminate. }
  apply bind_Ok_inv in Hrun as (product & w2 & _ & Hrun).
  apply bind_Ok_inv in Hrun as (u & w3 & _ & Hrun).
  apply bind_Ok_inv in Hrun as (deleted & w4 & Hdel & Hrun).
  injection Hrun as _ <-.
  apply store_call_Ok_inv in Hdel as (_ & _ & ->). simpl.
  split; [apply lookup_delete_eq | by exists user].
Qed.

(** X22.  Deleting the same sales record again after a successful deletion
    changes nothing: the second call answers "Sales record not found." and
    leaves the store as the first call left it. *)
Theorem deleteSalesRecord_twice (id : Z) (current_user : option User.t)
    (w w1 : World) (resp : DeleteSalesResponse.t) :
  deleteSalesRecord prisma id current_user w = (Ok resp, w1) →
  DeleteSalesResponse.success resp = true →
  outage w1 ≠ Some O →
  deleteSalesRecord prisma id current_user w1
  = (Ok {| DeleteSalesResponse.success := false;
           DeleteSalesResponse.message := "Sales record not found." |},
     served w1 (FindUnique "OrderItem" id) (store w1)).
Proof.
  intros Hrun Hsuccess Hout.
  destruct (deleteSalesRecord_success_removes _ _ _ _ _ Hrun Hsuccess)
    as (Hgone & user & -> & Hallowed).
  unfold deleteSalesRecord. simpl getattr. rewrite bind_lift_Ok.
  rewrite Hallowed, bind_lift_Ok.
  rewrite bind_run. unfold OrderItem_find_unique.
  rewrite store_call_served by done. simpl. by rewrite Hgone.
Qed.

(** X23.  [deleteSalesRecord] is not atomic either: if the final request,
    the deletion of the order item, is refused, the call raises while the
    product's quantity has already been increased and the log entry
    written, and the order item is still there. *)
Theorem deleteSalesRecord_not_atomic (id : Z) (user : User.t)
    (order_item : OrderItem.t) (product : InventoryItem.t) (st : Store) :
  "SalesManager" ∈ Role_members prisma →
  "Admin" ∈ Role_members prisma →
  User.role user ∈ ["SalesManager"; "Admin"] →
  orderItems st !! id = Some order_item →
  inventoryItems st !! OrderItem.itemId order_item = Some product →
  ∃ w',
    deleteSalesRecord prisma id (Some user)
      {| store := st; outage := Some 4%nat; calls := [] |}
    = (Raise (Exn PrismaError "store request failed"), w') ∧
    orderItems (store w') !! id = Some order_item ∧
    (InventoryItem.quantity
       <$> inventoryItems (store w') !! OrderItem.itemId order_item)
    = Some (InventoryItem.quantity product + OrderItem.quantity order_item) ∧
    length (inventoryLogs (store w')) = S (length (inventoryLogs st)).
Proof.
  intros Hs Ha Hrole Hoi Hinv. eexists. split.
  - unfold deleteSalesRecord. simpl getattr. rewrite bind_lift_Ok.
    rewrite (role_not_in_declared _ _ _ _ Hs Ha), bind_lift_Ok.
    rewrite bool_decide_eq_true_2 by done. cbn [negb].
    unfold OrderItem_find_unique, InventoryItem_find_unique,
      InventoryItem_update, InventoryLog_create, OrderItem_delete.
    repeat first
      [ rewrite bind_lift_Ok | rewrite bind_run
      | rewrite store_call_served by done
      | rewrite store_call_refused by done
      | rewrite Hoi | rewrite Hinv | progress simpl ].
    reflexivity.
  - simpl. split; [done|]. split.
    + by rewrite lookup_insert_eq.
    + rewrite length_app. simpl. lia.
Qed.

(** X24.  Whatever its arguments and outcome, [deleteSalesRecord] leaves
    the orders and every other order item as they were, adds or removes no
    inventory row, and keeps the existing log entries. *)
Theorem deleteSalesRecord_frame (id : Z) (current_user : option User.t)
    (w : World) :
  delete_sale_frame id w (deleteSalesRecord prisma id current_user w).2.
Proof.
  revert w. change (preserves (delete_sale_frame id)
    (deleteSalesRecord prisma id current_user)).
  unfold deleteSalesRecord.
  apply preserves_bind; [apply _..|apply preserves_lift; apply _|].
  intros role.
  apply preserves_bind; [apply _..|apply preserves_lift; apply _|].
  intros [|]; [apply preserves_ret; apply _|].
  apply preserves_bind; [apply _..| |].
  { apply preserves_store_call; intros w;
      by apply delete_sale_frame_same_store. }
  intros [order_item|]; [|apply preserves_ret; apply _].
  apply preserves_bind; [apply _..| |].
  { apply preserves_store_call; intros w;
      by apply delete_sale_frame_same_store. }
  intros product.
  apply preserves_bind; [apply _..| |].
  { destruct product as [product|]; [|apply preserves_ret; apply _].
    apply preserves_bind; [apply _..| |].
    { apply preserves_store_call; intros w;
        [by apply delete_sale_frame_same_store|].
      destruct (inventoryItems (store w) !! OrderItem.itemId order_item)
        as [it|] eqn:Hit; simpl; [|by apply delete_sale_frame_same_store].
      repeat split; simpl; try done.
      - apply dom_insert_lookup_L. by rewrite Hit.
      - exists []. by rewrite app_nil_r. }
    intros updated.
    apply preserves_bind; [apply _..|apply preserves_lift; apply _|].
    intros changedBy.
    apply preserves_bind; [apply _..| |].
    { apply preserves_store_call; intros w;
        [by apply delete_sale_frame_same_store|].
      repeat split; simpl; try done. by eexists. }
    intros log. apply preserves_ret; apply _. }
  intros u.
  apply preserves_bind; [apply _..| |].
  { apply preserves_store_call; intros w;
      [by apply delete_sale_frame_same_store|].
    repeat split; simpl; try done.
    - intros j Hj. by rewrite lookup_delete_ne.
    - exists []. by rewrite app_nil_r. }
  intros deleted. apply preserves_ret; apply _.
Qed.

End MoreOnDeleteSales.

Lemma deleteSalesRecord_restores_stock_sample :
  deleteSalesRecord sample_prisma 1 (Some (sample_user "SalesManager"))
    {| store := sample_store; outage := None; calls := [] |}
  = (Ok {| DeleteSalesResponse.success := true;
           DeleteSalesResponse.message :=
             "Sales record deleted successfully and inventory restored." |},
     {| store :=
          {| inventoryItems :=
               <[OrderItem.itemId (sample_line "ProductA" 3) :=
                   {| InventoryItem.id :=
                        InventoryItem.id (sample_product "ProductA");
                      InventoryItem.name :=
                        InventoryItem.name (sample_product "ProductA");
                      InventoryItem.quantity :=
                        InventoryItem.quantity (sample_product "ProductA")
                        + OrderItem.quantity (sample_line "ProductA" 3) |}]>
                 (inventoryItems sample_store);
             inventoryLogs :=
               inventoryLogs sample_store ++
               [{| InventoryLog.id :=
                     Z.of_nat (S (length (inventoryLogs sample_store)));
                   InventoryLog.itemId :=
                     OrderItem.itemId (sample_line "ProductA" 3);
                   InventoryLog.changedBy :=
                     User.id (sample_user "SalesManager");
                   InventoryLog.changeType := "Adjusted";
                   InventoryLog.amount :=
                     OrderItem.quantity (sample_line "ProductA" 3) |}];
             orderItems := delete 1 (orderItems sample_store);
             orders := orders sample_store |};
        outage := None;
        calls := [] ++
                 [FindUnique "OrderItem" 1;
                  FindUnique "InventoryItem"
                    (OrderItem.itemId (sample_line "ProductA" 3));
                  Update "InventoryItem"
                    (OrderItem.itemId (sample_line "ProductA" 3));
                  Create "InventoryLog";
                  Delete "OrderItem" 1] |}).
Proof.
  apply (deleteSalesRecord_restores_stock sample_prisma 1
           (sample_user "SalesManager") (sample_line "ProductA" 3)
           (sample_product "ProductA") sample_store []).
  - apply (bool_decide_unpack _). vm_compute. exact I.
  - apply (bool_decide_unpack _). vm_compute. exact I.
  - apply (bool_decide_unpack _). vm_compute. exact I.
  - reflexivity.
  - reflexivity.
Defined.

Lemma deleteSalesRecord_orphan_item_sample :
  deleteSalesRecord sample_prisma 1 (Some (sample_user "Admin"))
    {| store := sample_store_without_product; outage := None; calls := [] |}
  = (Ok {| DeleteSalesResponse.success := true;
           DeleteSalesResponse.message :=
             "Sales record deleted successfully and inventory restored." |},
     {| store :=
          {| inventoryItems := inventoryItems sample_store_without_product;
             inventoryLogs := inventoryLogs sample_store_without_product;
             orderItems := delete 1 (orderItems sample_store_without_product);
             orders := orders sample_store_without_product |};
        outage := None;
        calls := [] ++
                 [FindUnique "OrderItem" 1;
                  FindUnique "InventoryItem"
                    (OrderItem.itemId (sample_line "ProductA" 3));
                  Delete "OrderItem" 1] |}).
Proof.
  apply (deleteSalesRecord_orphan_item sample_prisma 1 (sample_user "Admin")
           (sample_line "ProductA" 3) sample_store_without_product []).
  - apply (bool_decide_unpack _). vm_compute. exact I.
  - apply (bool_decide_unpack _). vm_compute. exact I.
  - apply (bool_decide_unpack _). vm_compute. exact I.
  - reflexivity.
  - reflexivity.
Defined.

Lemma deleteSalesRecord_twice_sample :
  let first :=
    deleteSalesRecord sample_prisma 1 (Some (sample_user "SalesManager"))
      (sample_world None) in
  deleteSalesRecord sample_prisma 1 (Some (sample_user "SalesManager")) first.2
  = (Ok {| DeleteSalesResponse.success := false;
           DeleteSalesResponse.message := "Sales record not found." |},
     served first.2 (FindUnique "OrderItem" 1) (store first.2)).
Proof.
  intros first.
  apply (deleteSalesRecord_twice sample_prisma 1
           (Some (sample_user "SalesManager")) (sample_world None) first.2
           {| DeleteSalesResponse.success := true;
              DeleteSalesResponse.message :=
                "Sales record deleted successfully and inventory restored." |}).
  - vm_compute. reflexivity.
  - reflexivity.
  - vm_compute. discriminate.
Defined.

Lemma deleteSalesRecord_not_atomic_sample :
  ∃ w',
    deleteSalesRecord sample_prisma 1 (Some (sample_user "SalesManager"))
      {| store := sample_store; outage := Some 4%nat; calls := [] |}
    = (Raise (Exn PrismaError "store request failed"), w') ∧
    orderItems (store w') !! 1 = Some (sample_line "ProductA" 3) ∧
    (InventoryItem.quantity
       <$> inventoryItems (store w')
             !! OrderItem.itemId (sample_line "ProductA" 3))
    = Some (InventoryItem.quantity (sample_product "ProductA")
            + OrderItem.quantity (sample_line "ProductA" 3)) ∧
    length (inventoryLogs (store w')) = S (length (inventoryLogs sample_store)).
Proof.
  apply (deleteSalesRecord_not_atomic sample_prisma 1
           (sample_user "SalesManager") (sample_line "ProductA" 3)
           (sample_product "ProductA") sample_store).
  - apply (bool_decide_unpack _). vm_compute. exact I.
  - apply (bool_decide_unpack _). vm_compute. exact I.
  - apply (bool_decide_unpack _). vm_compute. exact I.
  - reflexivity.
  - reflexivity.
Defined.


(** ** get_current_active_user *)

Lemma first_not_disabled (table : list UserRow.t) :
  match UserRow.user
          <$> filter (fun row => UserRow.disabled row = false) table with
  | [] => Forall (fun row => UserRow.disabled row = true) table
  | user :: _ =>
      ∃ before row after,
        table = before ++ row :: after ∧
        Forall (fun row => UserRow.disabled row = true) before ∧
        UserRow.disabled row = false ∧ user = UserRow.user row
  end.
Proof.
  induction table as [|row table IH]; [constructor|].
  destruct (UserRow.disabled row) eqn:Hrow.
  - rewrite filter_cons_False by congruence.
    destruct (UserRow.user <$> filter _ table) as [|user rest].
    + by constructor.
    + destruct IH as (before & row' & after & -> & Hbefore & Hrow' & ->).
      exists (row :: before), row', after. split; [done|].
      split; [by constructor | done].
  - rewrite filter_cons_True by done. csimpl.
    exists [], row, table. split; [done|]. split; [constructor | done].
Qed.

(** X26.  [get_current_active_user] resolves the caller to the first row
    of the user table that is not disabled, and to [None] exactly when every
    row is disabled (an empty result is not indexed); it issues one read. *)
Theorem get_current_active_user_first_enabled (table : list UserRow.t)
    (w : World) :
  outage w ≠ Some O →
  ∃ found,
    get_current_active_user table w
    = (Ok found, served w (FindMany "User") (store w)) ∧
    match found with
    | None => Forall (fun row => UserRow.disabled row = true) table
    | Some user =>
        ∃ before row after,
          table = before ++ row :: after ∧
          Forall (fun row => UserRow.disabled row = true) before ∧
          UserRow.disabled row = false ∧ user = UserRow.user row
    end.
Proof.
  intros Hout. unfold get_current_active_user. rewrite bind_run.
  unfold User_find_many_not_disabled. rewrite store_call_served by done.
  simpl. pose proof (first_not_disabled table) as Hfirst.
  destruct (UserRow.user <$> filter _ table) as [|user rest];
    eexists; (split; [reflexivity|]); done.
Qed.

Lemma get_current_active_user_first_enabled_sample :
  ∃ found,
    get_current_active_user sample_users (sample_world None)
    = (Ok found, served (sample_world None) (FindMany "User")
                   (store (sample_world None))) ∧
    match found with
    | None => Forall (fun row => UserRow.disabled row = true) sample_users
    | Some user =>
        ∃ before row after,
          sample_users = before ++ row :: after ∧
          Forall (fun row => UserRow.disabled row = true) before ∧
          UserRow.disabled row = false ∧ user = UserRow.user row
    end.
Proof.
  apply (get_current_active_user_first_enabled sample_users (sample_world None)).
  discriminate.
Defined.
